(** * cmtstringer: constant extraction and label derivation

    A shallow embedding of [main.go] of github.com/lazada/cmtstringer: the
    walk over a parsed package that collects the constants of one type
    ([parsePackage]), the label taken from a constant's doc comment, the
    template of the generated [String] method and the naming of the output
    file ([parseDir]).

    Go strings are byte sequences: a Go [string] is a Rocq [string], whose
    characters ([ascii]) are the bytes.  The functions of Go's standard
    library that [main.go] calls are embedded from their Go definitions in
    the modules [utf8], [unicode], [strings] and [filepath]. *)

From Stdlib Require Import ZArith Lia List Bool Ascii String.
From Equations Require Import Equations.
Import ListNotations.
Local Open Scope string_scope.
Local Open Scope bool_scope.

(** ** Bytes *)

Definition byte (c : ascii) : Z := Z.of_N (N_of_ascii c).
Definition chr (b : Z) : ascii := ascii_of_N (Z.to_N b).

Definition CR : ascii := "013"%char.
Definition LF : ascii := "010"%char.
Definition SP : ascii := " "%char.

(** [s[n:]] for [n <= len(s)]. *)
Fixpoint drop (n : nat) (s : string) : string :=
  match n, s with
  | O, _ => s
  | S _, EmptyString => EmptyString
  | S n', String _ s' => drop n' s'
  end.

(** [s[:n]] for [n <= len(s)]. *)
Fixpoint take (n : nat) (s : string) : string :=
  match n, s with
  | O, _ => EmptyString
  | S _, EmptyString => EmptyString
  | S n', String c s' => String c (take n' s')
  end.

(** The bytes of [s] from the last to the first. *)
Fixpoint rev (s : string) : string :=
  match s with
  | EmptyString => EmptyString
  | String c s' => rev s' ++ String c EmptyString
  end.

(** ** Package unicode/utf8 *)

Module utf8.

Definition RuneError : Z := 0xFFFD.
Definition RuneSelf : Z := 0x80.
Definition MaxRune : Z := 0x10FFFF.

(** The table [first]: what the first byte of a sequence announces. *)
Inductive firstInfo : Type :=
| as_                                   (* ASCII, size 1 *)
| xx                                    (* invalid, size 1 *)
| seq (size : nat) (lo hi : Z).         (* size and accept range of byte 2 *)

Definition first (b : Z) : firstInfo :=
  if (b <? 0x80)%Z then as_
  else if (b <? 0xC2)%Z then xx
  else if (b <=? 0xDF)%Z then seq 2 0x80 0xBF
  else if (b =? 0xE0)%Z then seq 3 0xA0 0xBF
  else if (b <=? 0xEC)%Z then seq 3 0x80 0xBF
  else if (b =? 0xED)%Z then seq 3 0x80 0x9F
  else if (b <=? 0xEF)%Z then seq 3 0x80 0xBF
  else if (b =? 0xF0)%Z then seq 4 0x90 0xBF
  else if (b <=? 0xF3)%Z then seq 4 0x80 0xBF
  else if (b =? 0xF4)%Z then seq 4 0x80 0x8F
  else xx.

Definition outside (lo hi b : Z) : bool := (b <? lo)%Z || (hi <? b)%Z.

(** [DecodeRuneInString]: the first rune of [s] and its width in bytes. *)
Definition DecodeRuneInString (s : string) : Z * nat :=
  match s with
  | EmptyString => (RuneError, 0)
  | String c0 t =>
    let s0 := byte c0 in
    match first s0 with
    | as_ => (s0, 1)
    | xx => (RuneError, 1)
    | seq sz lo hi =>
      if (String.length s <? sz)%nat then (RuneError, 1) else
      match t with
      | EmptyString => (RuneError, 1)
      | String c1 t1 =>
        let s1 := byte c1 in
        if outside lo hi s1 then (RuneError, 1) else
        if (sz <=? 2)%nat then
          (Z.lor (Z.shiftl (Z.land s0 0x1F) 6) (Z.land s1 0x3F), 2)
        else
        match t1 with
        | EmptyString => (RuneError, 1)
        | String c2 t2 =>
          let s2 := byte c2 in
          if outside 0x80 0xBF s2 then (RuneError, 1) else
          if (sz <=? 3)%nat then
            (Z.lor (Z.lor (Z.shiftl (Z.land s0 0x0F) 12)
                          (Z.shiftl (Z.land s1 0x3F) 6))
                   (Z.land s2 0x3F), 3)
          else
          match t2 with
          | EmptyString => (RuneError, 1)
          | String c3 _ =>
            let s3 := byte c3 in
            if outside 0x80 0xBF s3 then (RuneError, 1) else
            (Z.lor (Z.lor (Z.lor (Z.shiftl (Z.land s0 0x07) 18)
                                 (Z.shiftl (Z.land s1 0x3F) 12))
                          (Z.shiftl (Z.land s2 0x3F) 6))
                   (Z.land s3 0x3F), 4)
          end
        end
      end
    end
  end.

(** [RuneStart]: the byte is not a continuation byte. *)
Definition RuneStart (b : Z) : bool := negb (Z.land b 0xC0 =? 0x80)%Z.

(** The loop of [DecodeLastRuneInString] that walks [start] back from
    [end - 2] to [lim = end - UTFMax], on the bytes before the last one read
    backwards; the result is [s[start : end-1]], backwards.  When no rune
    start is met, [start] is [lim - 1], or 0 when that is negative. *)
Fixpoint walkBack (n : nat) (r : string) : string :=
  match n, r with
  | _, EmptyString => EmptyString
  | O, String b _ => String b EmptyString
  | S n', String b r' =>
    if RuneStart (byte b) then String b EmptyString
    else String b (walkBack n' r')
  end.

(** [DecodeLastRuneInString]: the last rune of [s] and its width. *)
Definition DecodeLastRuneInString (s : string) : Z * nat :=
  match rev s with
  | EmptyString => (RuneError, 0)
  | String c r =>
    if (byte c <? RuneSelf)%Z then (byte c, 1) else
    let sl := rev (walkBack 3 r) ++ String c EmptyString in
    let (rn, size) := DecodeRuneInString sl in
    if (size =? String.length sl)%nat then (rn, size) else (RuneError, 1)
  end.

(** [AppendRune] to the empty slice: the UTF-8 encoding of [r]; what is not
    a code point is encoded as [RuneError]. *)
Definition enc3 (r : Z) : string :=
  String (chr (Z.lor 0xE0 (Z.shiftr r 12)))
  (String (chr (Z.lor 0x80 (Z.land (Z.shiftr r 6) 0x3F)))
  (String (chr (Z.lor 0x80 (Z.land r 0x3F))) EmptyString)).

Definition EncodeRune (r : Z) : string :=
  if (0 <=? r)%Z && (r <=? 0x7F)%Z then String (chr r) EmptyString
  else if (0 <=? r)%Z && (r <=? 0x7FF)%Z then
    String (chr (Z.lor 0xC0 (Z.shiftr r 6)))
    (String (chr (Z.lor 0x80 (Z.land r 0x3F))) EmptyString)
  else if (r <? 0)%Z || (MaxRune <? r)%Z
          || ((0xD800 <=? r)%Z && (r <=? 0xDFFF)%Z) then enc3 RuneError
  else if (r <=? 0xFFFF)%Z then enc3 r
  else
    String (chr (Z.lor 0xF0 (Z.shiftr r 18)))
    (String (chr (Z.lor 0x80 (Z.land (Z.shiftr r 12) 0x3F)))
    (String (chr (Z.lor 0x80 (Z.land (Z.shiftr r 6) 0x3F)))
    (String (chr (Z.lor 0x80 (Z.land r 0x3F))) EmptyString))).

End utf8.

(** ** Package unicode

    The range tables of package [unicode] are not part of this repository.
    Up to [MaxLatin1] the functions below follow Go's own fast paths; above
    it, the tables [Upper] and the lower-case mapping of [CaseRanges] are
    arguments.  [White_Space] is short and is written out. *)

Module unicode.

Definition MaxLatin1 : Z := 0xFF.
Definition MaxASCII : Z := 0x7F.

Definition within (lo hi r : Z) : bool := (lo <=? r)%Z && (r <=? hi)%Z.

Definition IsSpace (r : Z) : bool :=
  if within 0 MaxLatin1 r then
    within 0x09 0x0D r || (r =? 0x20)%Z || (r =? 0x85)%Z || (r =? 0xA0)%Z
  else
    (r =? 0x1680)%Z || within 0x2000 0x200A r || within 0x2028 0x2029 r
    || (r =? 0x202F)%Z || (r =? 0x205F)%Z || (r =? 0x3000)%Z.

Definition IsUpper (Upper : Z -> bool) (r : Z) : bool :=
  if within 0 MaxLatin1 r then
    within 0x41 0x5A r || within 0xC0 0xD6 r || within 0xD8 0xDE r
  else Upper r.

Definition ToLower (lowerCase : Z -> Z) (r : Z) : Z :=
  if (r <=? MaxASCII)%Z then
    if within 0x41 0x5A r then (r + 0x20)%Z else r
  else if (r <=? MaxLatin1)%Z then
    if within 0xC0 0xD6 r || within 0xD8 0xDE r then (r + 0x20)%Z else r
  else lowerCase r.

End unicode.

(** ** Package strings *)

Module strings.

(** [HasPrefix(s, prefix)]: [len(s) >= len(prefix) && s[:len(prefix)] == prefix]. *)
Fixpoint HasPrefix (s prefix : string) {struct prefix} : bool :=
  match prefix, s with
  | EmptyString, _ => true
  | String _ _, EmptyString => false
  | String p prefix', String c s' => Ascii.eqb c p && HasPrefix s' prefix'
  end.

(** [TrimPrefix(s, prefix)]: [s] without the leading [prefix], or [s] itself
    when it does not start with [prefix]. *)
Definition TrimPrefix (s prefix : string) : string :=
  if HasPrefix s prefix then drop (String.length prefix) s else s.

(** *** Replacer

    [NewReplacer(oldnew...)] with a key longer than one byte builds the generic
    replacer.  At each position of the input it looks the keys up in argument
    order and replaces the first one that matches there; with no match the
    byte is copied.  The keys of this program are not empty, and the rule of
    the empty key is left out: [lookup] passes over such a pair. *)

Definition Replacer : Type := list (string * string).

Fixpoint lookup (oldnew : Replacer) (s : string) : option (string * nat) :=
  match oldnew with
  | [] => None
  | (old, new) :: rest =>
    match old with
    | EmptyString => lookup rest s
    | String _ _ =>
      if HasPrefix s old then Some (new, String.length old) else lookup rest s
    end
  end.

Equations? Replace (oldnew : Replacer) (s : string) : string
  by wf (String.length s) lt :=
Replace oldnew EmptyString := EmptyString;
Replace oldnew (String c t) with lookup oldnew (String c t) := {
  | Some (val, keylen) := val ++ Replace oldnew (drop (Nat.pred keylen) t);
  | None := String c (Replace oldnew t) }.
Proof.
  all: try (simpl; lia).
  assert (L : forall n s, String.length (drop n s) <= String.length s).
  { induction n as [|n IH]; intros [|a s]; simpl; auto. }
  eapply Nat.le_lt_trans; [apply L | simpl; lia].
Qed.

(** *** Trimming *)

(** [TrimLeftFunc(s, f)]: [s] from its first rune that does not satisfy [f]. *)
Equations? TrimLeftFunc (f : Z -> bool) (s : string) : string
  by wf (String.length s) lt :=
TrimLeftFunc f EmptyString := EmptyString;
TrimLeftFunc f (String c t)
  with f (fst (utf8.DecodeRuneInString (String c t))) := {
  | true := TrimLeftFunc f (drop (Nat.pred (snd (utf8.DecodeRuneInString (String c t)))) t);
  | false := String c t }.
Proof.
  all: try (simpl; lia).
  assert (L : forall n s, String.length (drop n s) <= String.length s).
  { induction n as [|n IH]; intros [|a s]; simpl; auto. }
  eapply Nat.le_lt_trans; [apply L | simpl; lia].
Qed.

(** [s[:len(s)-n]]. *)
Definition dropLast (n : nat) (s : string) : string :=
  take (String.length s - n) s.

(** [TrimRightFunc(s, f)]: [lastIndexFunc] walks back from the end, one
    [DecodeLastRuneInString] at a time, while the rune satisfies [f]; the
    result is [s] up to the end of the last rune that does not. *)
Equations? TrimRightFunc (f : Z -> bool) (s : string) : string
  by wf (String.length s) lt :=
TrimRightFunc f EmptyString := EmptyString;
TrimRightFunc f (String c t)
  with f (fst (utf8.DecodeLastRuneInString (String c t))) := {
  | true := TrimRightFunc f
      (dropLast (S (Nat.pred (snd (utf8.DecodeLastRuneInString (String c t)))))
                (String c t));
  | false := String c t }.
Proof.
  assert (L : forall k s, String.length (take k s) <= k).
  { induction k as [|k IH]; intros [|a s]; simpl; auto with arith. }
  unfold dropLast. eapply Nat.le_lt_trans; [apply L | simpl; lia].
Qed.

Definition TrimFunc (s : string) (f : Z -> bool) : string :=
  TrimRightFunc f (TrimLeftFunc f s).

(** The table [asciiSpace]. *)
Definition asciiSpace (b : Z) : bool :=
  (b =? 0x09)%Z || (b =? 0x0A)%Z || (b =? 0x0B)%Z || (b =? 0x0C)%Z
  || (b =? 0x0D)%Z || (b =? 0x20)%Z.

(** The two loops of [TrimSpace] over ASCII bytes: they stop at the first
    byte that is no space ([Fast]) or hand the rest over to the
    Unicode-aware functions at a byte that is not ASCII ([Slow]). *)
Inductive scan : Type :=
| Fast (rest : string)
| Slow (rest : string).

Fixpoint scanSpace (s : string) : scan :=
  match s with
  | EmptyString => Fast EmptyString
  | String c t =>
    if (utf8.RuneSelf <=? byte c)%Z then Slow s
    else if asciiSpace (byte c) then scanSpace t
    else Fast s
  end.

Definition TrimSpace (s : string) : string :=
  match scanSpace s with
  | Slow rest => TrimFunc rest unicode.IsSpace
  | Fast rest =>
    match scanSpace (rev rest) with
    | Slow r => TrimRightFunc unicode.IsSpace (rev r)
    | Fast r => rev r
    end
  end.

(** *** Case mapping *)

(** [Map(mapping, s)]: the runes of [s], as [range] decodes them, each
    replaced by its image; a negative image is dropped. *)
Equations? Map (mapping : Z -> Z) (s : string) : string
  by wf (String.length s) lt :=
Map mapping EmptyString := EmptyString;
Map mapping (String c t) :=
  (let r := mapping (fst (utf8.DecodeRuneInString (String c t))) in
   if (0 <=? r)%Z then utf8.EncodeRune r else EmptyString)
  ++ Map mapping (drop (Nat.pred (snd (utf8.DecodeRuneInString (String c t)))) t).
Proof.
  all: try (simpl; lia).
  assert (L : forall n s, String.length (drop n s) <= String.length s).
  { induction n as [|n IH]; intros [|a s]; simpl; auto. }
  eapply Nat.le_lt_trans; [apply L | simpl; lia].
Qed.

Fixpoint isASCII (s : string) : bool :=
  match s with
  | EmptyString => true
  | String c t => (byte c <? utf8.RuneSelf)%Z && isASCII t
  end.

Definition isUpperByte (b : Z) : bool := (0x41 <=? b)%Z && (b <=? 0x5A)%Z.

Fixpoint hasUpper (s : string) : bool :=
  match s with
  | EmptyString => false
  | String c t => isUpperByte (byte c) || hasUpper t
  end.

Fixpoint lowerBytes (s : string) : string :=
  match s with
  | EmptyString => EmptyString
  | String c t =>
    String (if isUpperByte (byte c) then chr (byte c + 0x20) else c)
           (lowerBytes t)
  end.

(** [ToLower(s)], with its fast path for strings of ASCII bytes. *)
Definition ToLower (lowerCase : Z -> Z) (s : string) : string :=
  if isASCII s then
    if hasUpper s then lowerBytes s else s
  else Map (unicode.ToLower lowerCase) s.

End strings.

Arguments utf8.DecodeRuneInString : simpl never.
Arguments utf8.DecodeLastRuneInString : simpl never.

(** ** Package path/filepath (Unix) *)

Module filepath.

Definition Separator : ascii := "/"%char.

(** The path elements between separators. *)
Fixpoint split (s : string) : list string :=
  match s with
  | EmptyString => [EmptyString]
  | String c t =>
    if Ascii.eqb c Separator then EmptyString :: split t
    else match split t with
         | [] => [String c EmptyString]
         | h :: r => String c h :: r
         end
  end.

(** One element read by the loop of [Clean]; [out] holds the elements
    written so far, the last one first. *)
Definition cleanStep (rooted : bool) (out : list string) (elem : string)
  : list string :=
  if String.eqb elem "" then out                 (* empty path element *)
  else if String.eqb elem "." then out           (* . element *)
  else if String.eqb elem ".." then
    match out with
    | [] => if rooted then [] else [".."]
    | top :: rest =>
      if String.eqb top ".." then ".." :: out    (* cannot backtrack *)
      else rest                                  (* can backtrack *)
    end
  else elem :: out.                              (* real path element *)

Definition Clean (path : string) : string :=
  match path with
  | EmptyString => "."
  | String c _ =>
    let rooted := Ascii.eqb c Separator in
    let out := List.rev (fold_left (cleanStep rooted) (split path) []) in
    if rooted then "/" ++ String.concat "/" out
    else match out with
         | [] => "."
         | _ => String.concat "/" out
         end
  end.

(** [Join(dir, name)]: the elements from the first one that is not empty,
    joined by the separator and cleaned. *)
Definition Join (dir name : string) : string :=
  match dir, name with
  | EmptyString, EmptyString => EmptyString
  | EmptyString, _ => Clean name
  | _, _ => Clean (dir ++ "/" ++ name)
  end.

End filepath.

(** ** Package go/ast: the part of the syntax tree that is read *)

Module ast.

Record Ident : Type := mkIdent { Name : string }.

Inductive Expr : Type :=
| IdentExpr (id : Ident)
| BasicLit (Value : string)
| SelectorExpr (X : Expr) (Sel : Ident)
| StarExpr (X : Expr)
| ParenExpr (X : Expr)
| ArrayType (Elt : Expr).

(** A comment group is kept as the text that its method [Text] returns. *)
Record CommentGroup : Type := mkComment { Text : string }.

(** [Names] may hold nil pointers, [Doc] and [Type] may be nil. *)
Record ValueSpec : Type := mkValueSpec {
  Doc : option CommentGroup;
  Names : list (option Ident);
  Type_ : option Expr;
  Values : list Expr
}.

Inductive Spec : Type :=
| ImportSpec (Path : string)
| ValueSpecOf (vs : ValueSpec)
| TypeSpec (Name : Ident) (Type_ : Expr).

Inductive Token : Type := IMPORT | CONST | TYPE | VAR.

Inductive Decl : Type :=
| BadDecl
| GenDecl (Tok : Token) (Specs : list Spec)
| FuncDecl (Name : Ident).

Record File : Type := mkFile { Decls : list Decl }.

(** [Files] is a Go map from file names; it is kept in the order in which
    the [range] loop visits it. *)
Record Package : Type := mkPackage { Files : list (string * File) }.

Definition tokenIsCONST (t : Token) : bool :=
  match t with CONST => true | _ => false end.

End ast.

(** ** What the program takes from outside the repository *)

Record World : Type := mkWorld {
  (** the tables of package unicode above Latin-1 *)
  unicode_Upper : Z -> bool;
  unicode_lowerCase : Z -> Z;
  (** [parser.ParseDir]: the packages of a directory by name, in the order
      in which the [range] loop of [parseDir] visits the map; [None] is an
      error *)
  parser_ParseDir : string -> option (list (string * ast.Package));
  (** [os.Stat] and [IsDir]; [None] is an error *)
  os_Stat : string -> option bool;
  (** [types.Config.Check] returns no error *)
  types_Check : string -> ast.Package -> bool;
  (** the verb [%q] *)
  strconv_Quote : string -> string;
  (** [format.Source]; [None] is an error *)
  format_Source : string -> option string;
  (** [ioutil.WriteFile] to this name returns no error *)
  ioutil_WriteFile : string -> bool
}.

(** [token.IsExported]: the first rune of the name is an upper-case letter. *)
Definition IsExported (W : World) (name : string) : bool :=
  unicode.IsUpper (unicode_Upper W) (fst (utf8.DecodeRuneInString name)).

(** ** main.go *)

(** constValue represents information of a constant. *)
Record constValue : Type := mkConst { Name : string; Msg : string }.

Definition nlReplacer : strings.Replacer :=
  [ (String CR (String LF ""), " "); (String CR "", " "); (String LF "", " ") ].

(** Lines 230-239: the message of the constant [constName] of a spec whose
    doc comment is [Doc]. *)
Definition message (constName : string) (Doc : option ast.CommentGroup)
  : string :=
  match Doc with
  | None => ""
  | Some doc =>
    let comment := ast.Text doc in
    if strings.HasPrefix comment constName then
      let message := strings.Replace nlReplacer comment in
      let message := strings.TrimPrefix message constName in
      strings.TrimSpace message
    else ""
  end.

Section Extraction.

Variable W : World.
Variable typeName : string.

(** Lines 220-247: the loop over the names of one spec. *)
Definition scanName (vs : ast.ValueSpec) (values : list constValue)
  (n : option ast.Ident) : list constValue :=
  match n with
  | None => values
  | Some id =>
    if String.eqb (ast.Name id) "_" || negb (IsExported W (ast.Name id))
    then values
    else
      let constName := ast.Name id in
      values ++ [ {| Name := constName; Msg := message constName (ast.Doc vs) |} ]
  end.

Definition scanNames (vs : ast.ValueSpec) (values : list constValue)
  : list constValue :=
  fold_left (scanName vs) (ast.Names vs) values.

(** Line 209: [vs.Type.( *ast.Ident )] with its [ok]. *)
Definition asIdent (e : ast.Expr) : option ast.Ident :=
  match e with
  | ast.IdentExpr id => Some id
  | _ => None
  end.

Definition isNil {A : Type} (p : option A) : bool :=
  match p with None => true | Some _ => false end.

(** Lines 198-247: the body of the loop over the specs of one declaration;
    the state is the remembered type [typ] and [values]. *)
Definition scanSpec (st : string * list constValue) (vs : ast.ValueSpec)
  : string * list constValue :=
  let (typ, values) := st in
  if isNil (ast.Type_ vs) && (0 <? List.length (ast.Values vs))%nat then
    (* "X = 1". With no type but a value, the constant is untyped.
       Skip this vspec and reset the remembered type. *)
    ("", values)
  else
    let remembered :=
      match ast.Type_ vs with
      | Some e =>
        (* "X T". We have a type. Remember it. *)
        match asIdent e with
        | Some ident => Some (ast.Name ident)
        | None => None
        end
      | None => Some typ
      end in
    match remembered with
    | None => (typ, values)
    | Some typ =>
      if negb (String.eqb typ typeName) then (typ, values)
      else (typ, scanNames vs values)
    end.

(** Line 198: the type assertion of a spec to a value spec panics on
    another kind of spec; [None] is that panic. *)
Definition asValueSpec (s : ast.Spec) : option ast.ValueSpec :=
  match s with
  | ast.ValueSpecOf vs => Some vs
  | _ => None
  end.

Fixpoint scanSpecs (specs : list ast.Spec) (st : string * list constValue)
  : option (string * list constValue) :=
  match specs with
  | [] => Some st
  | s :: rest =>
    match asValueSpec s with
    | None => None
    | Some vs => scanSpecs rest (scanSpec st vs)
    end
  end.

(** Lines 187-248: one declaration of a file. *)
Definition scanDecl (values : list constValue) (d : ast.Decl)
  : option (list constValue) :=
  match d with
  | ast.GenDecl tok specs =>
    if ast.tokenIsCONST tok then
      match scanSpecs specs ("", values) with
      | None => None
      | Some (_, values') => Some values'
      end
    else Some values
  | _ => Some values
  end.

Fixpoint scanDecls (decls : list ast.Decl) (values : list constValue)
  : option (list constValue) :=
  match decls with
  | [] => Some values
  | d :: rest =>
    match scanDecl values d with
    | None => None
    | Some values' => scanDecls rest values'
    end
  end.

Fixpoint scanFiles (files : list (string * ast.File))
  (values : list constValue) : option (list constValue) :=
  match files with
  | [] => Some values
  | (_, f) :: rest =>
    match scanDecls (ast.Decls f) values with
    | None => None
    | Some values' => scanFiles rest values'
    end
  end.

Definition parsePackage (pkg : ast.Package) : option (list constValue) :=
  scanFiles (ast.Files pkg) [].

End Extraction.

(** ** Generation: effects

    A run writes files and ends by returning, by [os.Exit] ([log.Fatal]
    exits with status 1, the usage path with status 2) or by a panic.  The
    state is the log of the calls of [ioutil.WriteFile] that succeeded so
    far, the oldest first: the name and the data of each (on disk a later
    write to a name replaces the file of an earlier one). *)

Inductive Outcome (A : Type) : Type :=
| Ret (a : A)
| Exit (code : Z)
| Panic.
Arguments Ret {A} a.
Arguments Exit {A} code.
Arguments Panic {A}.

Definition Written : Type := list (string * string).

Definition M (A : Type) : Type := Written -> Written * Outcome A.

Definition ret {A : Type} (a : A) : M A := fun fs => (fs, Ret a).

Definition bind {A B : Type} (c : M A) (k : A -> M B) : M B :=
  fun fs =>
    match c fs with
    | (fs', Ret a) => k a fs'
    | (fs', Exit code) => (fs', Exit code)
    | (fs', Panic) => (fs', Panic)
    end.

Notation "x <- c ;; k" := (bind c (fun x => k))
  (at level 61, c at next level, right associativity).
Notation "c ;;; k" := (bind c (fun _ => k))
  (at level 61, right associativity).

Definition log_Fatal {A : Type} : M A := fun fs => (fs, Exit 1).
Definition os_Exit {A : Type} (code : Z) : M A := fun fs => (fs, Exit code).
Definition panic {A : Type} : M A := fun fs => (fs, Panic).
Definition writeFile (name data : string) : M unit :=
  fun fs => ((fs ++ [(name, data)])%list, Ret tt).

(** The [range] loop over the packages. *)
Fixpoint forEach {A : Type} (body : A -> M unit) (l : list A) : M unit :=
  match l with
  | [] => ret tt
  | a :: rest => body a ;;; forEach body rest
  end.

(** ** Generation: the template and [parseDir] *)

Record tmplData : Type := mkTmplData {
  PackageName : string;
  TypeName : string;
  Reciever : string;
  Consts : list constValue
}.

Definition nl : string := String LF "".
Definition tab : string := String "009"%char "".
Definition quote : string := String "034"%char "".

Section Generation.

Variable W : World.
Variable typeName : string.
Variable output : string.

(** [fileTemplateStr], executed on [data]. *)
Definition caseText (c : constValue) : string :=
  "case " ++ Name c ++ ":" ++ nl
  ++ tab ++ tab ++ "return " ++ strconv_Quote W (Msg c) ++ nl
  ++ tab.

Definition fileTemplate (data : tmplData) : string :=
  "package " ++ PackageName data ++ nl
  ++ nl
  ++ "// This file is generated by command cmtstringer." ++ nl
  ++ "// DO NOT EDIT IT." ++ nl
  ++ nl
  ++ "// String returns comment of const type " ++ TypeName data ++ nl
  ++ "func (" ++ Reciever data ++ " " ++ TypeName data
  ++ ") String() string {" ++ nl
  ++ tab ++ "switch " ++ Reciever data ++ " {" ++ nl
  ++ tab ++ String.concat "" (map caseText (Consts data))
  ++ "default:" ++ nl
  ++ tab ++ tab ++ "return " ++ quote ++ "Unknown" ++ quote ++ nl
  ++ tab ++ "}" ++ nl
  ++ "}" ++ nl.

Definition genfile (fileName : string) (data : tmplData) : M unit :=
  let buf := fileTemplate data in
  match format_Source W buf with
  | None => log_Fatal
  | Some fmtSource =>
    if ioutil_WriteFile W fileName then writeFile fileName fmtSource
    else log_Fatal
  end.

Definition checkPackages (dir : string) (p : ast.Package) : M unit :=
  if types_Check W dir p then ret tt else log_Fatal.

(** Line 166: [strings.ToLower(string(( *typeName )[0]))].  The index reads
    the first byte, the conversion makes the code point of that value a
    string; indexing the empty string panics. *)
Definition reciever : option string :=
  match typeName with
  | EmptyString => None
  | String c _ =>
    Some (strings.ToLower (unicode_lowerCase W) (utf8.EncodeRune (byte c)))
  end.

(** Lines 170-178. *)
Definition outputNameOf (dir : string) (numPkgs : nat) (pkgName : string)
  : string :=
  let outputName := output in
  let outputName :=
    if String.eqb outputName "" then
      let baseName := typeName ++ "_string_gen.go" in
      filepath.Join dir (strings.ToLower (unicode_lowerCase W) baseName)
    else outputName in
  if (1 <? numPkgs)%nat then pkgName ++ "_" ++ outputName
  else outputName.

(** Lines 150-180: the body of the loop over the packages. *)
Definition parseDirBody (dir : string) (numPkgs : nat)
  (p : string * ast.Package) : M unit :=
  let (pkgName, pkg) := p in
  checkPackages dir pkg ;;;
  values <- match parsePackage W typeName pkg with
            | Some values => ret values
            | None => panic
            end ;;
  if (List.length values =? 0)%nat then ret tt
  else
    r <- match reciever with
         | Some r => ret r
         | None => panic
         end ;;
    let data := {| PackageName := pkgName;
                   TypeName := typeName;
                   Reciever := r;
                   Consts := values |} in
    genfile (outputNameOf dir numPkgs pkgName) data.

Definition parseDir (dir : string) : M unit :=
  match parser_ParseDir W dir with
  | None => log_Fatal
  | Some pkgs => forEach (parseDirBody dir (List.length pkgs)) pkgs
  end.

Definition isDirectory (name : string) : M bool :=
  match os_Stat W name with
  | None => log_Fatal
  | Some isDir => ret isDir
  end.

Definition main (args : list string) : M unit :=
  if String.eqb typeName "" then os_Exit 2
  else
    let args := match args with [] => ["."] | _ => args end in
    let dir := hd "" args in
    d <- isDirectory dir ;;
    if negb d then os_Exit 2
    else parseDir dir.

End Generation.

(** ** The generated method

    What the written file does as a Go method is read off its text: the
    text is cut into lines and every line is read as one of the statements
    that the template can render.  A call of the method on a value goes
    through the case clauses of the switch on the receiver in order, takes
    the first one whose constant has that value, or else the default
    clause, and returns the string that the literal after [return] denotes.
    [None] is a text that this reading gives no result for. *)

Module gosrc.

(** The lines of a text, without their line feeds. *)
Fixpoint lines (s : string) : list string :=
  match s with
  | EmptyString => [EmptyString]
  | String c t =>
    if Ascii.eqb c LF then EmptyString :: lines t
    else match lines t with
         | [] => [String c EmptyString]
         | h :: r => String c h :: r
         end
  end.

(** A line without its indentation. *)
Fixpoint dropIndent (s : string) : string :=
  match s with
  | EmptyString => EmptyString
  | String c t =>
    if Ascii.eqb c "009"%char || Ascii.eqb c SP then dropIndent t else s
  end.

Definition HasSuffix (s suffix : string) : bool :=
  strings.HasPrefix (rev s) (rev suffix).

(** The bytes before the first space. *)
Fixpoint word (s : string) : string :=
  match s with
  | EmptyString => EmptyString
  | String c t => if Ascii.eqb c SP then EmptyString else String c (word t)
  end.

Inductive Stmt : Type :=
| SFunc (recv : string)       (* func (recv T) String() string { *)
| SSwitch (tag : string)      (* switch tag { *)
| SCase (name : string)       (* case name: *)
| SDefault                    (* default: *)
| SReturn (lit : string)      (* return lit *)
| SOther.                     (* package clause, comment, brace, blank *)

Definition classify (line : string) : Stmt :=
  let l := dropIndent line in
  if strings.HasPrefix l "case " then
    if HasSuffix l ":" then SCase (strings.dropLast 1 (drop 5 l)) else SOther
  else if String.eqb l "default:" then SDefault
  else if strings.HasPrefix l "return " then SReturn (drop 7 l)
  else if strings.HasPrefix l "func (" then
    if HasSuffix l ") String() string {" then SFunc (word (drop 6 l))
    else SOther
  else if strings.HasPrefix l "switch " then
    if HasSuffix l " {" then SSwitch (strings.dropLast 2 (drop 7 l))
    else SOther
  else SOther.

(** The byte that a one-letter escape of a string literal denotes; the
    escapes written with digits are not read. *)
Definition escape (e : ascii) : option ascii :=
  if Ascii.eqb e "a"%char then Some "007"%char
  else if Ascii.eqb e "b"%char then Some "008"%char
  else if Ascii.eqb e "f"%char then Some "012"%char
  else if Ascii.eqb e "n"%char then Some "010"%char
  else if Ascii.eqb e "r"%char then Some "013"%char
  else if Ascii.eqb e "t"%char then Some "009"%char
  else if Ascii.eqb e "v"%char then Some "011"%char
  else if Ascii.eqb e "092"%char then Some "092"%char
  else if Ascii.eqb e "034"%char then Some "034"%char
  else None.

(** The string denoted by the inside of an interpreted string literal. *)
Fixpoint unescape (s : string) : option string :=
  match s with
  | EmptyString => Some EmptyString
  | String c t =>
    if Ascii.eqb c "092"%char then
      match t with
      | EmptyString => None
      | String e t' =>
        match escape e, unescape t' with
        | Some b, Some r => Some (String b r)
        | _, _ => None
        end
      end
    else if Ascii.eqb c "034"%char || Ascii.eqb c LF then None
    else match unescape t with
         | Some r => Some (String c r)
         | None => None
         end
  end.

(** The string denoted by an interpreted string literal. *)
Definition unquote (lit : string) : option string :=
  match lit with
  | EmptyString => None
  | String q t =>
    if Ascii.eqb q "034"%char then
      match rev t with
      | EmptyString => None
      | String q' r =>
        if Ascii.eqb q' "034"%char then unescape (rev r) else None
      end
    else None
  end.

(** The statements after the header of the method, with its receiver. *)
Fixpoint afterFunc (stmts : list Stmt) : option (string * list Stmt) :=
  match stmts with
  | [] => None
  | SFunc r :: rest => Some (r, rest)
  | _ :: rest => afterFunc rest
  end.

(** The statements after the head of the switch, with its tag. *)
Fixpoint afterSwitch (stmts : list Stmt) : option (string * list Stmt) :=
  match stmts with
  | [] => None
  | SSwitch tag :: rest => Some (tag, rest)
  | _ :: rest => afterSwitch rest
  end.

Inductive Selected : Type :=
| Clause (body : list Stmt)
| NoClause
| NoValue.      (* a case names a constant that has no value *)

(** The case clauses are tried from the top: the body of the first one
    whose constant has the value [s]. *)
Fixpoint selectCase (valueOf : string -> option Z) (s : Z)
  (stmts : list Stmt) : Selected :=
  match stmts with
  | [] => NoClause
  | SCase name :: rest =>
    match valueOf name with
    | None => NoValue
    | Some v => if (v =? s)%Z then Clause rest else selectCase valueOf s rest
    end
  | _ :: rest => selectCase valueOf s rest
  end.

Fixpoint selectDefault (stmts : list Stmt) : option (list Stmt) :=
  match stmts with
  | [] => None
  | SDefault :: rest => Some rest
  | _ :: rest => selectDefault rest
  end.

(** The clauses of the template hold one statement, a return of a literal. *)
Definition returned (body : list Stmt) : option string :=
  match body with
  | SReturn lit :: _ => unquote lit
  | _ => None
  end.

Definition runStmts (stmts : list Stmt) (valueOf : string -> option Z)
  (s : Z) : option string :=
  match afterFunc stmts with
  | None => None
  | Some (r, rest) =>
    match afterSwitch rest with
    | None => None
    | Some (tag, clauses) =>
      if String.eqb tag r then
        match selectCase valueOf s clauses with
        | Clause body => returned body
        | NoValue => None
        | NoClause =>
          match selectDefault clauses with
          | Some body => returned body
          | None => None
          end
        end
      else None
    end
  end.

(** The call of the method [String] of the text [src] on a receiver of the
    value [s], where [valueOf] gives the values of the constants. *)
Definition callString (src : string) (valueOf : string -> option Z) (s : Z)
  : option string :=
  runStmts (map classify (lines src)) valueOf s.

End gosrc.

(** ** The example package [http]

    The file of the repository that declares [StatusCode] and its two
    documented constants, as the parser gives it: the doc text of a line
    comment is its text and a newline. *)

Definition ident (name : string) : option ast.Ident :=
  Some (ast.mkIdent name).

Definition statusSpec (name doc value : string) : ast.Spec :=
  ast.ValueSpecOf
    {| ast.Doc := Some (ast.mkComment (doc ++ nl));
       ast.Names := [ident name];
       ast.Type_ := Some (ast.IdentExpr (ast.mkIdent "StatusCode"));
       ast.Values := [ast.BasicLit value] |}.

Definition httpFile : ast.File :=
  {| ast.Decls :=
       [ ast.GenDecl ast.TYPE
           [ast.TypeSpec (ast.mkIdent "StatusCode")
                         (ast.IdentExpr (ast.mkIdent "int"))];
         ast.GenDecl ast.CONST
           [ statusSpec "StatusBadRequest" "StatusBadRequest Bad Request" "400";
             statusSpec "StatusNotFound" "StatusNotFound Not Found" "404" ] ] |}.

Definition httpPackage : ast.Package :=
  {| ast.Files := [("statuscode.go", httpFile)] |}.

(** The values of the constants of the example. *)
Definition httpValueOf (name : string) : option Z :=
  if String.eqb name "StatusBadRequest" then Some 400%Z
  else if String.eqb name "StatusNotFound" then Some 404%Z
  else None.

(** A world for running the definitions: no upper-case letter and no case
    mapping above Latin-1, one directory [http] with the example package,
    a checker and a formatter that accept everything, and [%q] on strings
    that need no escape. *)
Definition plainWorld : World :=
  {| unicode_Upper := fun _ => false;
     unicode_lowerCase := fun r => r;
     parser_ParseDir := fun dir =>
       if String.eqb dir "http" then Some [("http", httpPackage)] else None;
     os_Stat := fun name => if String.eqb name "http" then Some true else None;
     types_Check := fun _ _ => true;
     strconv_Quote := fun s => quote ++ s ++ quote;
     format_Source := fun src => Some src;
     ioutil_WriteFile := fun _ => true |}.

(** ** The specification's reading of the extraction

    The definitions of this part follow the words of the specification
    (data model: EffectiveType, CandidateConstant; 4.1 and 4.2); the
    theorems compare them with the code above. *)

(** The four shapes of a spec: "no explicit type and an explicit
    initializer", "an explicit type that is a simple identifier", "an
    explicit type that is not a simple identifier", "neither type nor
    initializer". *)
Inductive SpecKind : Type :=
| UntypedValue
| SimpleTyped (t : string)
| CompoundTyped
| Bare.

Definition kindOf (vs : ast.ValueSpec) : SpecKind :=
  match ast.Type_ vs with
  | Some (ast.IdentExpr id) => SimpleTyped (ast.Name id)
  | Some _ => CompoundTyped
  | None =>
    match ast.Values vs with
    | [] => Bare
    | _ :: _ => UntypedValue
    end
  end.

(** The remembered type after a spec, from the remembered type before it. *)
Definition remember (typ : string) (vs : ast.ValueSpec) : string :=
  match kindOf vs with
  | UntypedValue => ""
  | SimpleTyped t => t
  | CompoundTyped => typ
  | Bare => typ
  end.

(** The names of a spec that may be candidates, with their messages: not
    the discard identifier, and publicly visible. *)
Definition candidate (W : World) (vs : ast.ValueSpec) (n : option ast.Ident)
  : list constValue :=
  match n with
  | None => []
  | Some id =>
    if String.eqb (ast.Name id) "_" then []
    else if IsExported W (ast.Name id) then
      [ {| Name := ast.Name id;
           Msg := message (ast.Name id) (ast.Doc vs) |} ]
    else []
  end.

Definition candidates (W : World) (vs : ast.ValueSpec) : list constValue :=
  flat_map (candidate W vs) (ast.Names vs).

(** A spec is scanned for names when it is not an untyped spec with a
    value, its type, if any, is a simple identifier, and the remembered
    type after it is the target type. *)
Definition emits (typeName typ : string) (vs : ast.ValueSpec) : bool :=
  match kindOf vs with
  | UntypedValue => false
  | CompoundTyped => false
  | SimpleTyped t => String.eqb t typeName
  | Bare => String.eqb typ typeName
  end.

(** The candidates of the specs of one group, from the remembered type
    [typ]. *)
Fixpoint groupCandidates (W : World) (typeName typ : string)
  (vss : list ast.ValueSpec) : list constValue :=
  match vss with
  | [] => []
  | vs :: rest =>
    (if emits typeName typ vs then candidates W vs else [])
    ++ groupCandidates W typeName (remember typ vs) rest
  end.

(** The remembered type after the specs of a group. *)
Definition rememberAll (typ : string) (vss : list ast.ValueSpec) : string :=
  fold_left remember vss typ.

(** The constant declaration groups of a package, in the order of its
    files and declarations. *)
Definition constGroup (d : ast.Decl) : list (list ast.Spec) :=
  match d with
  | ast.GenDecl ast.CONST specs => [specs]
  | _ => []
  end.

Definition constGroups (pkg : ast.Package) : list (list ast.Spec) :=
  flat_map (fun f => flat_map constGroup (ast.Decls (snd f))) (ast.Files pkg).

Definition valueSpecs (specs : list ast.Spec) : list ast.ValueSpec :=
  flat_map (fun s => match s with
                     | ast.ValueSpecOf vs => [vs]
                     | _ => []
                     end) specs.

Definition groupsOf (decls : list ast.Decl) : list (list ast.Spec) :=
  flat_map constGroup decls.

(** The candidates of a list of groups: every group starts from the empty
    remembered type. *)
Definition candidatesOf (W : World) (typeName : string)
  (groups : list (list ast.Spec)) : list constValue :=
  flat_map (fun g => groupCandidates W typeName "" (valueSpecs g)) groups.

(** What the parser guarantees: the specs of a constant declaration are
    value specs. *)
Definition isValueSpec (s : ast.Spec) : bool :=
  match s with ast.ValueSpecOf _ => true | _ => false end.

Definition wellFormed (pkg : ast.Package) : bool :=
  forallb (forallb isValueSpec) (constGroups pkg).

(** "Replacing every line-break sequence with a single space": CR LF, CR
    and LF each become one space, every other byte stays. *)
Fixpoint flattenLines (s : string) : string :=
  match s with
  | EmptyString => EmptyString
  | String c t =>
    if Ascii.eqb c CR then
      match t with
      | String c' t' =>
        if Ascii.eqb c' LF then String SP (flattenLines t')
        else String SP (flattenLines t)
      | EmptyString => String SP EmptyString
      end
    else if Ascii.eqb c LF then String SP (flattenLines t)
    else String c (flattenLines t)
  end.

(** No byte of [s] is a line break. *)
Fixpoint noBreak (s : string) : bool :=
  match s with
  | EmptyString => true
  | String c t => negb (Ascii.eqb c CR) && negb (Ascii.eqb c LF) && noBreak t
  end.

(** The bytes that a Go identifier is made of: ASCII letters, digits and
    the underscore, and the bytes of the letters and digits that are not
    ASCII. *)
Definition identByte (c : ascii) : bool :=
  let b := byte c in
  ((0x41 <=? b)%Z && (b <=? 0x5A)%Z) || ((0x61 <=? b)%Z && (b <=? 0x7A)%Z)
  || ((0x30 <=? b)%Z && (b <=? 0x39)%Z) || (b =? 0x5F)%Z || (0x80 <=? b)%Z.

Fixpoint identBytes (s : string) : bool :=
  match s with
  | EmptyString => true
  | String c t => identByte c && identBytes t
  end.

(** "Full token match at the start": the text starts with the name, and
    the name ends there, at the end of the text or before a byte that
    cannot continue an identifier. *)
Definition startsWithToken (text name : string) : bool :=
  strings.HasPrefix text name
  && match drop (String.length name) text with
     | EmptyString => true
     | String c _ => negb (identByte c)
     end.

(** Leading white space, as runes: [s] is [l ++ rest] where [l] is made of
    runes in [White_Space]. *)
Inductive SpacesThen : string -> string -> Prop :=
| SpacesThen_done (s : string) : SpacesThen s s
| SpacesThen_rune (s rest : string) :
    s <> EmptyString ->
    unicode.IsSpace (fst (utf8.DecodeRuneInString s)) = true ->
    SpacesThen (drop (snd (utf8.DecodeRuneInString s)) s) rest ->
    SpacesThen s rest.

(** Trailing white space, as runes. *)
Inductive ThenSpaces : string -> string -> Prop :=
| ThenSpaces_done (s : string) : ThenSpaces s s
| ThenSpaces_rune (s rest : string) :
    s <> EmptyString ->
    unicode.IsSpace (fst (utf8.DecodeLastRuneInString s)) = true ->
    ThenSpaces (strings.dropLast (snd (utf8.DecodeLastRuneInString s)) s) rest ->
    ThenSpaces s rest.

(** [t] is [s] with its leading and trailing white space removed. *)
Definition Trimmed (s t : string) : Prop :=
  exists m,
    SpacesThen s m /\ ThenSpaces m t
    /\ (t = EmptyString
        \/ (unicode.IsSpace (fst (utf8.DecodeRuneInString t)) = false
            /\ unicode.IsSpace (fst (utf8.DecodeLastRuneInString t)) = false)).

(** A directory [pkg] with two packages: the example package and a package
    [main] without constants.  Only the directory [pkg] exists: a file can
    be written there and nowhere else. *)
Definition mainPackage : ast.Package :=
  {| ast.Files := [("gen.go", {| ast.Decls := [ast.FuncDecl (ast.mkIdent "main")] |})] |}.

Definition twoPackageWorld : World :=
  {| unicode_Upper := fun _ => false;
     unicode_lowerCase := fun r => r;
     parser_ParseDir := fun dir =>
       if String.eqb dir "pkg"
       then Some [("http", httpPackage); ("main", mainPackage)] else None;
     os_Stat := fun name => if String.eqb name "pkg" then Some true else None;
     types_Check := fun _ _ => true;
     strconv_Quote := fun s => quote ++ s ++ quote;
     format_Source := fun src => Some src;
     ioutil_WriteFile := fun name => strings.HasPrefix name "pkg/" |}.

(** ** Inputs of the examples *)

(** A type name of two Hebrew letters, alef and bet (U+05D0, U+05D1), in
    UTF-8: a Go identifier. *)
Definition alefBet : string :=
  String (chr 0xD7) (String (chr 0x90) (String (chr 0xD7) (String (chr 0x91) ""))).

(** [const ( // OKAY means fine \n OK Status = 0 )]: a constant whose doc
    comment starts with a longer word than its name. *)
Definition okPackage : ast.Package :=
  {| ast.Files :=
       [("ok.go",
         {| ast.Decls :=
              [ast.GenDecl ast.CONST
                 [ast.ValueSpecOf
                    {| ast.Doc := Some (ast.mkComment ("OKAY means fine" ++ nl));
                       ast.Names := [ident "OK"];
                       ast.Type_ := Some (ast.IdentExpr (ast.mkIdent "Status"));
                       ast.Values := [ast.BasicLit "0"] |}]] |})] |}.

(** [Y pkg.U = 2]: a spec whose type is a qualified name. *)
Definition qualifiedSpec : ast.ValueSpec :=
  {| ast.Doc := None;
     ast.Names := [ident "Y"];
     ast.Type_ := Some (ast.SelectorExpr (ast.IdentExpr (ast.mkIdent "pkg"))
                                         (ast.mkIdent "U"));
     ast.Values := [ast.BasicLit "2"] |}.

(** [X T = 1], without a doc comment, and [Z], a bare name. *)
Definition typedSpec : ast.ValueSpec :=
  {| ast.Doc := None;
     ast.Names := [ident "X"];
     ast.Type_ := Some (ast.IdentExpr (ast.mkIdent "T"));
     ast.Values := [ast.BasicLit "1"] |}.

Definition bareSpec : ast.ValueSpec :=
  {| ast.Doc := None; ast.Names := [ident "Z"]; ast.Type_ := None;
     ast.Values := [] |}.

(** [// StatusBadRequest Bad Request \n StatusBadRequest StatusCode = 400]. *)
Definition docSpec : ast.ValueSpec :=
  {| ast.Doc := Some (ast.mkComment ("StatusBadRequest Bad Request" ++ nl));
     ast.Names := [ident "StatusBadRequest"];
     ast.Type_ := Some (ast.IdentExpr (ast.mkIdent "StatusCode"));
     ast.Values := [ast.BasicLit "400"] |}.

(** The file that main.go's own documentation shows for the example. *)
Definition httpGenerated : string :=
  "package http" ++ nl
  ++ nl
  ++ "// This file is generated by command cmtstringer." ++ nl
  ++ "// DO NOT EDIT IT." ++ nl
  ++ nl
  ++ "// String returns comment of const type StatusCode" ++ nl
  ++ "func (s StatusCode) String() string {" ++ nl
  ++ tab ++ "switch s {" ++ nl
  ++ tab ++ "case StatusBadRequest:" ++ nl
  ++ tab ++ tab ++ "return " ++ quote ++ "Bad Request" ++ quote ++ nl
  ++ tab ++ "case StatusNotFound:" ++ nl
  ++ tab ++ tab ++ "return " ++ quote ++ "Not Found" ++ quote ++ nl
  ++ tab ++ "default:" ++ nl
  ++ tab ++ tab ++ "return " ++ quote ++ "Unknown" ++ quote ++ nl
  ++ tab ++ "}" ++ nl
  ++ "}" ++ nl.

(** [// StatusNotFound Not Found \n StatusNotFound StatusCode = 404]. *)
Definition docSpec' : ast.ValueSpec :=
  {| ast.Doc := Some (ast.mkComment ("StatusNotFound Not Found" ++ nl));
     ast.Names := [ident "StatusNotFound"];
     ast.Type_ := Some (ast.IdentExpr (ast.mkIdent "StatusCode"));
     ast.Values := [ast.BasicLit "404"] |}.

(** [const ( X T = 1; Z )], both without a doc comment. *)
Definition undocumentedPackage : ast.Package :=
  {| ast.Files :=
       [("t.go",
         {| ast.Decls :=
              [ast.GenDecl ast.CONST
                 [ast.ValueSpecOf typedSpec; ast.ValueSpecOf bareSpec]] |})] |}.

(** A doc text with a line break of two bytes inside. *)
Definition brokenDoc : ast.CommentGroup :=
  ast.mkComment ("StatusBadRequest Bad" ++ String CR (String LF "Request") ++ nl).

(** ** Further notions used in the theorems on the whole program *)

Definition isBare (vs : ast.ValueSpec) : bool :=
  match kindOf vs with Bare => true | _ => false end.

Definition isConstDecl (d : ast.Decl) : bool :=
  match d with ast.GenDecl ast.CONST _ => true | _ => false end.

(** The package with only its constant declarations left. *)
Definition constDeclsOnly (pkg : ast.Package) : ast.Package :=
  {| ast.Files :=
       map (fun p => (fst p, {| ast.Decls := filter isConstDecl (ast.Decls (snd p)) |}))
           (ast.Files pkg) |}.

(** [const ( Red Color = iota; Green; Blue; limit = 3; Hidden )] *)
Definition colorSpec (name : string) (typed : bool) : ast.ValueSpec :=
  {| ast.Doc := Some (ast.mkComment (name ++ " is a colour" ++ nl));
     ast.Names := [ident name];
     ast.Type_ := if typed then Some (ast.IdentExpr (ast.mkIdent "Color"))
                  else None;
     ast.Values := if typed then [ast.IdentExpr (ast.mkIdent "iota")] else [] |}.

Definition limitSpec : ast.ValueSpec :=
  {| ast.Doc := None; ast.Names := [ident "Limit"]; ast.Type_ := None;
     ast.Values := [ast.BasicLit "3"] |}.

Definition colorPackage : ast.Package :=
  {| ast.Files :=
       [("color.go",
         {| ast.Decls :=
              [ ast.GenDecl ast.IMPORT [ast.ImportSpec "fmt"];
                ast.GenDecl ast.TYPE
                  [ast.TypeSpec (ast.mkIdent "Color")
                                (ast.IdentExpr (ast.mkIdent "int"))];
                ast.GenDecl ast.CONST
                  [ ast.ValueSpecOf (colorSpec "Red" true);
                    ast.ValueSpecOf (colorSpec "Green" false);
                    ast.ValueSpecOf (colorSpec "Blue" false);
                    ast.ValueSpecOf limitSpec;
                    ast.ValueSpecOf (colorSpec "Hidden" false) ];
                ast.FuncDecl (ast.mkIdent "init") ] |})] |}.

(** A constant declaration that holds a spec of another kind: no parser
    builds it. *)
Definition brokenPackage : ast.Package :=
  {| ast.Files :=
       [("broken.go",
         {| ast.Decls := [ast.GenDecl ast.CONST [ast.ImportSpec "fmt"]] |})] |}.

(** Every byte of [s] is one of the six ASCII white-space bytes. *)
Fixpoint asciiSpaces (s : string) : bool :=
  match s with
  | EmptyString => true
  | String c t => strings.asciiSpace (byte c) && asciiSpaces t
  end.

(** A file that a run may write for one package of the directory. *)
Definition writtenFor (W : World) (typeName output dir : string)
  (pkgs : list (string * ast.Package)) (file : string * string) : Prop :=
  exists pkgName pkg values r,
    In (pkgName, pkg) pkgs
    /\ types_Check W dir pkg = true
    /\ parsePackage W typeName pkg = Some values
    /\ values <> []
    /\ reciever W typeName = Some r
    /\ fst file = outputNameOf W typeName output dir (List.length pkgs) pkgName
    /\ format_Source W (fileTemplate W {| PackageName := pkgName;
                                          TypeName := typeName;
                                          Reciever := r;
                                          Consts := values |})
       = Some (snd file).

(** No byte of [s] is the path separator. *)
Fixpoint noSeparator (s : string) : bool :=
  match s with
  | EmptyString => true
  | String c t => negb (Ascii.eqb c filepath.Separator) && noSeparator t
  end.

(** The world of the examples with a checker that rejects every package. *)
Definition rejectingWorld : World :=
  {| unicode_Upper := unicode_Upper plainWorld;
     unicode_lowerCase := unicode_lowerCase plainWorld;
     parser_ParseDir := parser_ParseDir plainWorld;
     os_Stat := os_Stat plainWorld;
     types_Check := fun _ _ => false;
     strconv_Quote := strconv_Quote plainWorld;
     format_Source := format_Source plainWorld;
     ioutil_WriteFile := ioutil_WriteFile plainWorld |}.

(** ** The rendered text, line by line

    The lines of the text of [fileTemplate], used to read the rendered
    text; [fileTemplate_lines] below proves that the template renders
    exactly these lines. *)









(** * Theorems *)

(** ** The extraction follows the remembered type *)

Section ExtractionFacts.

Variable W : World.
Variable typeName : string.

Lemma scanName_candidate (vs : ast.ValueSpec) (values : list constValue)
  (n : option ast.Ident) :
  scanName W vs values n = (values ++ candidate W vs n)%list.
Proof.
  unfold scanName, candidate. destruct n as [id|].
  - destruct (String.eqb (ast.Name id) "_"); simpl.
    + now rewrite app_nil_r.
    + destruct (IsExported W (ast.Name id)); simpl; [reflexivity|].
      now rewrite app_nil_r.
  - now rewrite app_nil_r.
Qed.

Lemma scanNames_candidates (vs : ast.ValueSpec) (values : list constValue) :
  scanNames W vs values = (values ++ candidates W vs)%list.
Proof.
  unfold scanNames, candidates. revert values.
  induction (ast.Names vs) as [|n names IH]; intro values; simpl.
  - now rewrite app_nil_r.
  - rewrite IH, scanName_candidate. now rewrite app_assoc.
Qed.

(** One turn of the loop over the specs, in the specification's terms. *)
Lemma scanSpec_remember (typ : string) (values : list constValue)
  (vs : ast.ValueSpec) :
  scanSpec W typeName (typ, values) vs
  = (remember typ vs,
     (values ++ if emits typeName typ vs then candidates W vs else [])%list).
Proof.
  unfold scanSpec, remember, emits, kindOf.
  destruct (ast.Type_ vs) as [e|]; simpl.
  - destruct e; simpl; try now rewrite app_nil_r.
    destruct (String.eqb (ast.Name id) typeName); simpl.
    + now rewrite scanNames_candidates.
    + now rewrite app_nil_r.
  - destruct (ast.Values vs); simpl.
    + destruct (String.eqb typ typeName); simpl.
      * now rewrite scanNames_candidates.
      * now rewrite app_nil_r.
    + now rewrite app_nil_r.
Qed.

Lemma scanSpecs_group (specs : list ast.Spec) (typ : string)
  (values : list constValue) :
  forallb isValueSpec specs = true ->
  scanSpecs W typeName specs (typ, values)
  = Some (rememberAll typ (valueSpecs specs),
          (values ++ groupCandidates W typeName typ (valueSpecs specs))%list).
Proof.
  revert typ values.
  induction specs as [|s specs IH]; intros typ values Hwf.
  - simpl. now rewrite app_nil_r.
  - simpl in Hwf. apply andb_prop in Hwf as [Hs Hrest].
    destruct s as [p|vs|n t]; try discriminate.
    change (valueSpecs (ast.ValueSpecOf vs :: specs))
      with (vs :: valueSpecs specs).
    cbn [scanSpecs asValueSpec].
    rewrite scanSpec_remember, (IH _ _ Hrest).
    unfold rememberAll. cbn [fold_left groupCandidates].
    now rewrite app_assoc.
Qed.

(** A spec that is not a value spec makes the loop panic. *)
Lemma scanSpecs_panic (specs : list ast.Spec) (st : string * list constValue) :
  forallb isValueSpec specs = false ->
  scanSpecs W typeName specs st = None.
Proof.
  revert st. induction specs as [|s specs IH]; intros st H; simpl in *.
  - discriminate.
  - destruct s as [p|vs|n t]; simpl in *; try reflexivity.
    now apply IH.
Qed.

Lemma scanDecl_group (d : ast.Decl) (values : list constValue) :
  forallb (forallb isValueSpec) (constGroup d) = true ->
  scanDecl W typeName values d
  = Some (values ++ candidatesOf W typeName (constGroup d))%list.
Proof.
  unfold candidatesOf.
  destruct d as [|tok specs|n]; simpl; try now rewrite app_nil_r.
  destruct tok; simpl; try now rewrite app_nil_r.
  rewrite andb_true_r. intro Hwf.
  rewrite (scanSpecs_group _ _ _ Hwf). now rewrite app_nil_r.
Qed.

Lemma scanDecls_groups (decls : list ast.Decl) (values : list constValue) :
  forallb (forallb isValueSpec) (groupsOf decls) = true ->
  scanDecls W typeName decls values
  = Some (values ++ candidatesOf W typeName (groupsOf decls))%list.
Proof.
  unfold candidatesOf, groupsOf. revert values.
  induction decls as [|d decls IH]; intros values Hwf; simpl.
  - now rewrite app_nil_r.
  - simpl in Hwf. rewrite forallb_app in Hwf.
    apply andb_prop in Hwf as [Hd Hrest].
    rewrite (scanDecl_group _ _ Hd), (IH _ Hrest).
    unfold candidatesOf. now rewrite flat_map_app, app_assoc.
Qed.

Lemma scanFiles_groups (files : list (string * ast.File))
  (values : list constValue) :
  forallb (forallb isValueSpec) (constGroups (ast.mkPackage files)) = true ->
  scanFiles W typeName files values
  = Some (values ++ candidatesOf W typeName (constGroups (ast.mkPackage files)))%list.
Proof.
  unfold candidatesOf, constGroups. simpl. revert values.
  induction files as [|[name f] files IH]; intros values Hwf; simpl.
  - now rewrite app_nil_r.
  - simpl in Hwf. rewrite forallb_app in Hwf.
    apply andb_prop in Hwf as [Hf Hrest].
    rewrite (scanDecls_groups _ _ Hf), (IH _ Hrest).
    unfold candidatesOf, groupsOf. now rewrite flat_map_app, app_assoc.
Qed.

(** The extractor on a package of the parser: the candidates of its
    constant groups, each group scanned from the empty remembered type. *)
Lemma parsePackage_groups (pkg : ast.Package) :
  wellFormed pkg = true ->
  parsePackage W typeName pkg = Some (candidatesOf W typeName (constGroups pkg)).
Proof.
  intro Hwf. unfold parsePackage. destruct pkg as [files].
  now rewrite (scanFiles_groups _ _ Hwf).
Qed.

End ExtractionFacts.

(** C1.  In every constant declaration group, scanned spec by spec from the
    empty remembered type: a spec with no type and a value sets the
    remembered type to empty and adds no entry; a spec typed by a simple
    identifier sets the remembered type to that identifier; a spec with
    neither type nor value keeps the remembered type; and such a spec adds
    its candidate names exactly when the remembered type after it is the
    target type.  Every group of a package starts again from the empty
    remembered type: the result for a package is the concatenation of the
    results of its groups, each computed from [""]. *)
Theorem C1_remembered_type (W : World) (typeName : string) :
  typeName <> "" ->
  (forall typ values vs,
      kindOf vs = UntypedValue ->
      scanSpec W typeName (typ, values) vs = ("", values))
  /\ (forall typ values vs t,
      kindOf vs = SimpleTyped t ->
      fst (scanSpec W typeName (typ, values) vs) = t)
  /\ (forall typ values vs,
      kindOf vs = Bare ->
      fst (scanSpec W typeName (typ, values) vs) = typ)
  /\ (forall typ values vs,
      kindOf vs <> CompoundTyped ->
      snd (scanSpec W typeName (typ, values) vs)
      = (values
         ++ if String.eqb (fst (scanSpec W typeName (typ, values) vs)) typeName
            then candidates W vs else [])%list)
  /\ (forall specs values,
      forallb isValueSpec specs = true ->
      scanSpecs W typeName specs ("", values)
      = Some (fold_left (scanSpec W typeName) (valueSpecs specs) ("", values)))
  /\ (forall pkg,
      wellFormed pkg = true ->
      parsePackage W typeName pkg
      = Some (flat_map
                (fun g => snd (fold_left (scanSpec W typeName) (valueSpecs g)
                                         ("", [])))
                (constGroups pkg))).
Proof.
  intro Hne.
  assert (Hfold : forall vss typ values,
             fold_left (scanSpec W typeName) vss (typ, values)
             = (rememberAll typ vss,
                (values ++ groupCandidates W typeName typ vss)%list)).
  { induction vss as [|vs vss IH]; intros typ values; cbn [fold_left].
    - unfold rememberAll. simpl. now rewrite app_nil_r.
    - rewrite scanSpec_remember, IH. unfold rememberAll.
      cbn [fold_left groupCandidates]. now rewrite app_assoc. }
  repeat split.
  - intros typ values vs Hk. rewrite scanSpec_remember.
    unfold remember, emits. rewrite Hk. now rewrite app_nil_r.
  - intros typ values vs t Hk. rewrite scanSpec_remember.
    unfold remember. now rewrite Hk.
  - intros typ values vs Hk. rewrite scanSpec_remember.
    unfold remember. now rewrite Hk.
  - intros typ values vs Hk. rewrite scanSpec_remember. simpl.
    unfold remember, emits. destruct (kindOf vs); try reflexivity.
    + destruct typeName; [now elim Hne | reflexivity].
    + now elim Hk.
  - intros specs values Hwf.
    now rewrite (scanSpecs_group W typeName _ _ _ Hwf), Hfold.
  - intros pkg Hwf. rewrite (parsePackage_groups W typeName _ Hwf).
    f_equal. unfold candidatesOf. apply flat_map_ext. intro g.
    now rewrite Hfold.
Qed.

(** C10.  A spec whose type is not a simple identifier adds no entry and
    keeps the remembered type, so the specs after it in the group are
    scanned as if it were not there, and a bare spec right after it takes
    the type remembered before it. *)
Theorem C10_compound_type_skipped (W : World) (typeName : string)
  (vs : ast.ValueSpec) (e : ast.Expr) :
  ast.Type_ vs = Some e ->
  asIdent e = None ->
  (forall typ values,
      scanSpec W typeName (typ, values) vs = (typ, values))
  /\ (forall pre post st,
      scanSpecs W typeName (pre ++ ast.ValueSpecOf vs :: post) st
      = scanSpecs W typeName (pre ++ post) st)
  /\ (forall typ values bare,
      kindOf bare = Bare ->
      scanSpec W typeName (scanSpec W typeName (typ, values) vs) bare
      = (typ,
         (values
          ++ if String.eqb typ typeName then candidates W bare else [])%list)).
Proof.
  intros Ht He.
  assert (Hskip : forall typ values,
             scanSpec W typeName (typ, values) vs = (typ, values)).
  { intros typ values. unfold scanSpec. now rewrite Ht, He. }
  repeat split.
  - exact Hskip.
  - intros pre post. induction pre as [|s pre IH]; intros [typ values];
      cbn [app scanSpecs asValueSpec].
    + now rewrite Hskip.
    + destruct (asValueSpec s); [apply IH | reflexivity].
  - intros typ values bare Hb. rewrite Hskip, scanSpec_remember.
    unfold remember, emits. now rewrite Hb.
Qed.

(** The entries that a spec adds are exported and are not the discard
    identifier. *)
Lemma candidates_exported (W : World) (vs : ast.ValueSpec) (e : constValue) :
  In e (candidates W vs) ->
  Name e <> "_" /\ IsExported W (Name e) = true.
Proof.
  unfold candidates. rewrite in_flat_map. intros [n [_ Hin]].
  destruct n as [id|]; simpl in Hin; [|contradiction].
  destruct (String.eqb (ast.Name id) "_") eqn:Hb; [contradiction|].
  destruct (IsExported W (ast.Name id)) eqn:Hx; [|contradiction].
  destruct Hin as [<-|[]]. simpl. split; [|exact Hx].
  intro Heq. rewrite Heq in Hb. discriminate.
Qed.

Lemma scanSpec_exported (W : World) (typeName : string)
  (st : string * list constValue) (vs : ast.ValueSpec)
  (P := fun e => Name e <> "_" /\ IsExported W (Name e) = true) :
  Forall P (snd st) -> Forall P (snd (scanSpec W typeName st vs)).
Proof.
  destruct st as [typ values]. rewrite scanSpec_remember. simpl.
  intro H. apply Forall_app. split; [exact H|].
  destruct (emits typeName typ vs); [|constructor].
  apply Forall_forall. intros e. apply candidates_exported.
Qed.

Lemma scanSpecs_exported (W : World) (typeName : string)
  (specs : list ast.Spec) (st st' : string * list constValue)
  (P := fun e => Name e <> "_" /\ IsExported W (Name e) = true) :
  scanSpecs W typeName specs st = Some st' ->
  Forall P (snd st) -> Forall P (snd st').
Proof.
  revert st. induction specs as [|s specs IH]; intros st Hs H; simpl in Hs.
  - now inversion Hs; subst.
  - destruct (asValueSpec s) as [vs|]; [|discriminate].
    apply (IH _ Hs). now apply scanSpec_exported.
Qed.

Lemma scanDecls_exported (W : World) (typeName : string)
  (decls : list ast.Decl) (values values' : list constValue)
  (P := fun e => Name e <> "_" /\ IsExported W (Name e) = true) :
  scanDecls W typeName decls values = Some values' ->
  Forall P values -> Forall P values'.
Proof.
  revert values. induction decls as [|d decls IH]; intros values Hs H;
    simpl in Hs.
  - now inversion Hs; subst.
  - destruct (scanDecl W typeName values d) as [v|] eqn:Hd; [|discriminate].
    apply (IH _ Hs). unfold scanDecl in Hd.
    destruct d as [|tok specs|n]; try (inversion Hd; subst; exact H).
    destruct (ast.tokenIsCONST tok); [|inversion Hd; subst; exact H].
    destruct (scanSpecs W typeName specs ("", values)) as [[t v']|] eqn:Hg;
      [|discriminate].
    inversion Hd; subst.
    exact (scanSpecs_exported W typeName _ _ _ Hg H).
Qed.

(** C5.  No entry of the extractor's output is named by the discard
    identifier or by a name that is not exported. *)
Theorem C5_no_blank_no_unexported (W : World) (typeName : string)
  (pkg : ast.Package) (values : list constValue) (e : constValue) :
  parsePackage W typeName pkg = Some values ->
  In e values ->
  Name e <> "_" /\ IsExported W (Name e) = true.
Proof.
  unfold parsePackage. intros Hp Hin.
  assert (H : forall files v v',
             scanFiles W typeName files v = Some v' ->
             Forall (fun e => Name e <> "_" /\ IsExported W (Name e) = true) v ->
             Forall (fun e => Name e <> "_" /\ IsExported W (Name e) = true) v').
  { induction files as [|[name f] files IH]; intros v v' Hs Hv; simpl in Hs.
    - now inversion Hs; subst.
    - destruct (scanDecls W typeName (ast.Decls f) v) as [v1|] eqn:Hd;
        [|discriminate].
      apply (IH _ _ Hs). exact (scanDecls_exported W typeName _ _ _ Hd Hv). }
  specialize (H _ _ _ Hp (Forall_nil _)).
  rewrite Forall_forall in H. exact (H e Hin).
Qed.

(** ** The label of a constant *)

(** The replacer of the program, one byte at a time. *)
Lemma nlReplace_cons (c : ascii) (t : string) :
  strings.Replace nlReplacer (String c t)
  = if Ascii.eqb c CR then
      match t with
      | String c' t' =>
        if Ascii.eqb c' LF then String SP (strings.Replace nlReplacer t')
        else String SP (strings.Replace nlReplacer t)
      | EmptyString => String SP EmptyString
      end
    else if Ascii.eqb c LF then String SP (strings.Replace nlReplacer t)
    else String c (strings.Replace nlReplacer t).
Proof.
  rewrite strings.Replace_equation_2. unfold nlReplacer.
  destruct (Ascii.eqb c CR) eqn:E1.
  - destruct t as [|c' t']; cbn [strings.lookup strings.HasPrefix];
      rewrite E1; [reflexivity|].
    destruct (Ascii.eqb c' LF) eqn:E2; reflexivity.
  - destruct (Ascii.eqb c LF) eqn:E2;
      destruct t as [|c' t']; cbn [strings.lookup strings.HasPrefix];
      rewrite E1, E2; reflexivity.
Qed.

(** The replacer does what the specification calls flattening. *)
Lemma nlReplace_flatten (s : string) :
  strings.Replace nlReplacer s = flattenLines s.
Proof.
  assert (H : forall n s, String.length s <= n ->
                          strings.Replace nlReplacer s = flattenLines s).
  { induction n as [|n IH]; intros [|c t] Hn; simpl in Hn;
      try reflexivity; try lia.
    rewrite nlReplace_cons. cbn [flattenLines].
    destruct (Ascii.eqb c CR).
    - destruct t as [|c' t']; [reflexivity|]. simpl in Hn.
      destruct (Ascii.eqb c' LF); f_equal; apply IH; simpl; lia.
    - destruct (Ascii.eqb c LF); f_equal; apply IH; lia. }
  apply (H (String.length s)). lia.
Qed.

Lemma identByte_plain (c : ascii) :
  identByte c = true ->
  Ascii.eqb c CR = false /\ Ascii.eqb c LF = false /\ Ascii.eqb SP c = false.
Proof.
  intro H. repeat split.
  - destruct (Ascii.eqb c CR) eqn:E; [|reflexivity].
    apply Ascii.eqb_eq in E. subst c. discriminate H.
  - destruct (Ascii.eqb c LF) eqn:E; [|reflexivity].
    apply Ascii.eqb_eq in E. subst c. discriminate H.
  - destruct (Ascii.eqb SP c) eqn:E; [|reflexivity].
    apply Ascii.eqb_eq in E. subst c. discriminate H.
Qed.

(** A name made of identifier bytes starts the text if and only if it
    starts the flattened text. *)
Lemma HasPrefix_flatten (name s : string) :
  identBytes name = true ->
  strings.HasPrefix (flattenLines s) name = strings.HasPrefix s name.
Proof.
  revert s. induction name as [|p name IH]; intros s Hid.
  - now destruct s; destruct (flattenLines _).
  - simpl in Hid. apply andb_prop in Hid as [Hp Hname].
    destruct (identByte_plain p Hp) as [Hcr [Hlf Hsp]].
    destruct s as [|c t]; [reflexivity|].
    cbn [flattenLines].
    destruct (Ascii.eqb c CR) eqn:E1.
    + apply Ascii.eqb_eq in E1. subst c.
      assert (E : Ascii.eqb CR p = false) by (now rewrite Ascii.eqb_sym).
      destruct t as [|c' t']; [|destruct (Ascii.eqb c' LF)];
        cbn [strings.HasPrefix]; now rewrite Hsp, E.
    + destruct (Ascii.eqb c LF) eqn:E2.
      * apply Ascii.eqb_eq in E2. subst c.
        assert (E : Ascii.eqb LF p = false) by (now rewrite Ascii.eqb_sym).
        cbn [strings.HasPrefix]. now rewrite Hsp, E.
      * cbn [strings.HasPrefix]. now rewrite (IH _ Hname).
Qed.

Lemma flatten_noBreak (s : string) : noBreak (flattenLines s) = true.
Proof.
  assert (H : forall n s, String.length s <= n ->
                          noBreak (flattenLines s) = true).
  { induction n as [|n IH]; intros [|c t] Hn; simpl in Hn;
      try reflexivity; try lia.
    cbn [flattenLines].
    destruct (Ascii.eqb c CR) eqn:E1.
    - destruct t as [|c' t']; [reflexivity|]. simpl in Hn.
      destruct (Ascii.eqb c' LF); cbn [noBreak]; rewrite IH;
        simpl; try reflexivity; lia.
    - destruct (Ascii.eqb c LF) eqn:E2; cbn [noBreak].
      + rewrite IH; [reflexivity | lia].
      + rewrite E1, E2, IH; [reflexivity | lia]. }
  apply (H (String.length s)). lia.
Qed.

Lemma flatten_fixed (s : string) :
  noBreak s = true -> flattenLines s = s.
Proof.
  induction s as [|c t IH]; intro H; [reflexivity|].
  simpl in H. apply andb_prop in H as [H Ht]. apply andb_prop in H as [H1 H2].
  apply negb_true_iff in H1, H2. cbn [flattenLines].
  now rewrite H1, H2, (IH Ht).
Qed.

(** Flattening a flattened text changes nothing. *)
Lemma flatten_idempotent (s : string) :
  flattenLines (flattenLines s) = flattenLines s.
Proof. apply flatten_fixed, flatten_noBreak. Qed.

(** ** Trimming white space *)

Lemma append_nil_r (s : string) : s ++ "" = s.
Proof. induction s as [|c s IH]; simpl; [reflexivity | now rewrite IH]. Qed.

Lemma append_assoc (a b c : string) : (a ++ b) ++ c = a ++ (b ++ c).
Proof. induction a as [|x a IH]; simpl; [reflexivity | now rewrite IH]. Qed.

Lemma length_append (a b : string) :
  String.length (a ++ b) = String.length a + String.length b.
Proof. induction a as [|x a IH]; simpl; [reflexivity | now rewrite IH]. Qed.

Lemma rev_append (a b : string) : rev (a ++ b) = rev b ++ rev a.
Proof.
  induction a as [|x a IH]; simpl.
  - now rewrite append_nil_r.
  - now rewrite IH, append_assoc.
Qed.

Lemma rev_involutive (s : string) : rev (rev s) = s.
Proof.
  induction s as [|c s IH]; simpl; [reflexivity|].
  now rewrite rev_append, IH.
Qed.

Lemma take_drop (k : nat) (s : string) : take k s ++ drop k s = s.
Proof.
  revert s. induction k as [|k IH]; intros [|c s]; simpl; try reflexivity.
  now rewrite IH.
Qed.

Lemma take_append (a b : string) : take (String.length a) (a ++ b) = a.
Proof. induction a as [|x a IH]; simpl; [now destruct b | now rewrite IH]. Qed.

Lemma dropLast_snoc (s : string) (c : ascii) :
  strings.dropLast 1 (s ++ String c "") = s.
Proof.
  unfold strings.dropLast. rewrite length_append. simpl.
  replace (String.length s + 1 - 1) with (String.length s) by lia.
  apply take_append.
Qed.

(** The decoders read at least one byte of a string that is not empty. *)
Lemma first_size (b : Z) (sz : nat) (lo hi : Z) :
  utf8.first b = utf8.seq sz lo hi -> sz = 2 \/ sz = 3 \/ sz = 4.
Proof.
  unfold utf8.first.
  repeat match goal with
         | |- context [if ?x then _ else _] => destruct x
         end; intro H; inversion H; auto.
Qed.

Lemma Decode_width (c : ascii) (t : string) :
  1 <= snd (utf8.DecodeRuneInString (String c t)).
Proof.
  unfold utf8.DecodeRuneInString.
  destruct (utf8.first (byte c)) as [| |sz lo hi]; simpl; try lia.
  repeat match goal with
         | |- context [if ?x then _ else _] => destruct x; simpl; try lia
         | |- context [match ?x with EmptyString => _ | String _ _ => _ end] =>
           destruct x; simpl; try lia
         end.
Qed.

Lemma DecodeLast_width (c : ascii) (t : string) :
  1 <= snd (utf8.DecodeLastRuneInString (String c t)).
Proof.
  unfold utf8.DecodeLastRuneInString.
  destruct (rev (String c t)) as [|x r] eqn:E.
  - apply (f_equal String.length) in E. simpl in E.
    rewrite length_append in E. simpl in E. lia.
  - destruct (byte x <? utf8.RuneSelf)%Z; simpl; [lia|].
    destruct (utf8.DecodeRuneInString _) as [rn size].
    destruct (Nat.eqb size _) eqn:Es; simpl; [|lia].
    apply Nat.eqb_eq in Es. rewrite Es, length_append. simpl. lia.
Qed.

Lemma TrimLeftFunc_unfold (f : Z -> bool) (s : string) :
  s <> "" ->
  strings.TrimLeftFunc f s
  = if f (fst (utf8.DecodeRuneInString s))
    then strings.TrimLeftFunc f (drop (snd (utf8.DecodeRuneInString s)) s)
    else s.
Proof.
  destruct s as [|c t]; [congruence|]. intros _.
  rewrite strings.TrimLeftFunc_equation_2.
  unfold strings.TrimLeftFunc_unfold_clause_2.
  pose proof (Decode_width c t) as Hw.
  destruct (f (fst (utf8.DecodeRuneInString (String c t)))); [|reflexivity].
  destruct (snd (utf8.DecodeRuneInString (String c t))) as [|w]; [lia|].
  reflexivity.
Qed.

Lemma TrimRightFunc_unfold (f : Z -> bool) (s : string) :
  s <> "" ->
  strings.TrimRightFunc f s
  = if f (fst (utf8.DecodeLastRuneInString s))
    then strings.TrimRightFunc f
           (strings.dropLast (snd (utf8.DecodeLastRuneInString s)) s)
    else s.
Proof.
  destruct s as [|c t]; [congruence|]. intros _.
  rewrite strings.TrimRightFunc_equation_2.
  unfold strings.TrimRightFunc_unfold_clause_2.
  pose proof (DecodeLast_width c t) as Hw.
  destruct (f (fst (utf8.DecodeLastRuneInString (String c t)))); [|reflexivity].
  destruct (snd (utf8.DecodeLastRuneInString (String c t))) as [|w]; [lia|].
  reflexivity.
Qed.

Lemma length_drop (n : nat) (s : string) :
  String.length (drop n s) = String.length s - n.
Proof.
  revert s. induction n as [|n IH]; intros [|c s]; simpl; auto with arith.
Qed.

Lemma length_take (n : nat) (s : string) :
  String.length (take n s) = Nat.min n (String.length s).
Proof.
  revert s. induction n as [|n IH]; intros [|c s]; simpl; auto.
Qed.

(** [TrimLeftFunc] removes runes that satisfy [f] and stops at the first
    one that does not. *)
Lemma TrimLeftFunc_spaces (s : string) :
  SpacesThen s (strings.TrimLeftFunc unicode.IsSpace s)
  /\ (strings.TrimLeftFunc unicode.IsSpace s = ""
      \/ unicode.IsSpace
           (fst (utf8.DecodeRuneInString
                   (strings.TrimLeftFunc unicode.IsSpace s))) = false).
Proof.
  assert (H : forall n s, String.length s <= n ->
     SpacesThen s (strings.TrimLeftFunc unicode.IsSpace s)
     /\ (strings.TrimLeftFunc unicode.IsSpace s = ""
         \/ unicode.IsSpace
              (fst (utf8.DecodeRuneInString
                      (strings.TrimLeftFunc unicode.IsSpace s))) = false)).
  { induction n as [|n IH]; intros [|c t] Hn; simpl in Hn; try lia.
    - rewrite strings.TrimLeftFunc_equation_1. split; [constructor | now left].
    - rewrite strings.TrimLeftFunc_equation_1. split; [constructor | now left].
    - assert (Hne : String c t <> "") by discriminate.
      rewrite (TrimLeftFunc_unfold _ _ Hne).
      pose proof (Decode_width c t) as Hw.
      destruct (unicode.IsSpace (fst (utf8.DecodeRuneInString (String c t))))
        eqn:Hsp.
      + destruct (IH (drop (snd (utf8.DecodeRuneInString (String c t)))
                           (String c t))) as [H1 H2].
        { rewrite length_drop. cbn [String.length]. lia. }
        split; [|exact H2].
        now apply SpacesThen_rune.
      + split; [constructor | now right]. }
  apply (H (String.length s)). lia.
Qed.

Lemma TrimRightFunc_spaces (s : string) :
  ThenSpaces s (strings.TrimRightFunc unicode.IsSpace s)
  /\ (strings.TrimRightFunc unicode.IsSpace s = ""
      \/ unicode.IsSpace
           (fst (utf8.DecodeLastRuneInString
                   (strings.TrimRightFunc unicode.IsSpace s))) = false).
Proof.
  assert (H : forall n s, String.length s <= n ->
     ThenSpaces s (strings.TrimRightFunc unicode.IsSpace s)
     /\ (strings.TrimRightFunc unicode.IsSpace s = ""
         \/ unicode.IsSpace
              (fst (utf8.DecodeLastRuneInString
                      (strings.TrimRightFunc unicode.IsSpace s))) = false)).
  { induction n as [|n IH]; intros [|c t] Hn; simpl in Hn; try lia.
    - rewrite strings.TrimRightFunc_equation_1. split; [constructor | now left].
    - rewrite strings.TrimRightFunc_equation_1. split; [constructor | now left].
    - assert (Hne : String c t <> "") by discriminate.
      rewrite (TrimRightFunc_unfold _ _ Hne).
      pose proof (DecodeLast_width c t) as Hw.
      destruct (unicode.IsSpace (fst (utf8.DecodeLastRuneInString (String c t))))
        eqn:Hsp.
      + destruct (IH (strings.dropLast
                        (snd (utf8.DecodeLastRuneInString (String c t)))
                        (String c t))) as [H1 H2].
        { unfold strings.dropLast. rewrite length_take. cbn [String.length]. lia. }
        split; [|exact H2].
        now apply ThenSpaces_rune.
      + split; [constructor | now right]. }
  apply (H (String.length s)). lia.
Qed.

(** *** The paths of [TrimSpace] over ASCII bytes *)

Lemma Decode_ascii (c : ascii) (t : string) :
  (utf8.RuneSelf <=? byte c)%Z = false ->
  utf8.DecodeRuneInString (String c t) = (byte c, 1).
Proof.
  intro H. unfold utf8.DecodeRuneInString, utf8.first.
  unfold utf8.RuneSelf in H. apply Z.leb_gt in H.
  destruct (Z.ltb_spec (byte c) 128) as [_|Hge]; [reflexivity | lia].
Qed.

Lemma DecodeLast_ascii (s : string) (c : ascii) :
  (utf8.RuneSelf <=? byte c)%Z = false ->
  utf8.DecodeLastRuneInString (s ++ String c "") = (byte c, 1).
Proof.
  intro H. unfold utf8.DecodeLastRuneInString.
  rewrite rev_append. cbn [rev String.append].
  apply Z.leb_gt in H. apply Z.ltb_lt in H. now rewrite H.
Qed.

Lemma asciiSpace_IsSpace (c : ascii) :
  (utf8.RuneSelf <=? byte c)%Z = false ->
  unicode.IsSpace (byte c) = strings.asciiSpace (byte c).
Proof.
  destruct c as [b0 b1 b2 b3 b4 b5 b6 b7].
  destruct b0, b1, b2, b3, b4, b5, b6, b7; vm_compute;
    intro H; try discriminate H; reflexivity.
Qed.

Lemma scanSpace_left (s : string) :
  strings.TrimLeftFunc unicode.IsSpace s
  = match strings.scanSpace s with
    | strings.Slow rest => strings.TrimLeftFunc unicode.IsSpace rest
    | strings.Fast rest => rest
    end.
Proof.
  induction s as [|c t IH]; [reflexivity|].
  cbn [strings.scanSpace].
  destruct (utf8.RuneSelf <=? byte c)%Z eqn:E1; [reflexivity|].
  rewrite TrimLeftFunc_unfold by discriminate.
  rewrite (Decode_ascii _ _ E1). cbn [fst snd drop].
  rewrite (asciiSpace_IsSpace _ E1).
  destruct (strings.asciiSpace (byte c)); [exact IH | reflexivity].
Qed.

Lemma snoc_not_empty (s : string) (c : ascii) : s ++ String c "" <> "".
Proof. destruct s; discriminate. Qed.

Lemma scanSpace_right (u : string) :
  strings.TrimRightFunc unicode.IsSpace (rev u)
  = match strings.scanSpace u with
    | strings.Slow r => strings.TrimRightFunc unicode.IsSpace (rev r)
    | strings.Fast r => rev r
    end.
Proof.
  induction u as [|c u IH]; [reflexivity|].
  cbn [strings.scanSpace].
  destruct (utf8.RuneSelf <=? byte c)%Z eqn:E1; [reflexivity|].
  cbn [rev].
  rewrite TrimRightFunc_unfold by apply snoc_not_empty.
  rewrite (DecodeLast_ascii _ _ E1). cbn [fst snd].
  rewrite (asciiSpace_IsSpace _ E1), dropLast_snoc.
  destruct (strings.asciiSpace (byte c)); [exact IH | reflexivity].
Qed.

(** [TrimSpace] is [TrimFunc] with [unicode.IsSpace]. *)
Lemma TrimSpace_TrimFunc (s : string) :
  strings.TrimSpace s = strings.TrimFunc s unicode.IsSpace.
Proof.
  unfold strings.TrimSpace, strings.TrimFunc.
  rewrite (scanSpace_left s).
  destruct (strings.scanSpace s) as [rest|rest]; [|reflexivity].
  now rewrite <- (scanSpace_right (rev rest)), rev_involutive.
Qed.

(** A rune that is decoded as a space is decoded from its own bytes: what
    follows does not matter. *)
Lemma Decode_append (a b : string) :
  unicode.IsSpace (fst (utf8.DecodeRuneInString a)) = true ->
  utf8.DecodeRuneInString (a ++ b) = utf8.DecodeRuneInString a.
Proof.
  destruct a as [|c0 a]; [intro H; vm_compute in H; discriminate H|].
  unfold utf8.DecodeRuneInString. cbn [String.append].
  destruct (utf8.first (byte c0)) as [| |sz lo hi] eqn:Ef; try reflexivity.
  destruct (first_size _ _ _ _ Ef) as [E|[E|E]]; subst sz.
  - destruct a as [|c1 a];
      [intro H; vm_compute in H; discriminate H|].
    intros _. reflexivity.
  - destruct a as [|c1 [|c2 a]];
      try (intro H; vm_compute in H; discriminate H).
    intros _. reflexivity.
  - destruct a as [|c1 [|c2 [|c3 a]]];
      try (intro H; vm_compute in H; discriminate H).
    intros _. reflexivity.
Qed.

Lemma ThenSpaces_first (m t : string) :
  ThenSpaces m t ->
  t <> "" ->
  unicode.IsSpace (fst (utf8.DecodeRuneInString m)) = false ->
  unicode.IsSpace (fst (utf8.DecodeRuneInString t)) = false.
Proof.
  induction 1 as [s|s rest Hne Hsp Hrest IH]; intros Ht Hm; [exact Hm|].
  apply (IH Ht).
  destruct (unicode.IsSpace
              (fst (utf8.DecodeRuneInString
                      (strings.dropLast
                         (snd (utf8.DecodeLastRuneInString s)) s)))) eqn:E;
    [|reflexivity].
  unfold strings.dropLast in E.
  pose proof (Decode_append _
                (drop (String.length s - snd (utf8.DecodeLastRuneInString s)) s)
                E) as Hd.
  rewrite take_drop in Hd. rewrite <- Hd in E. congruence.
Qed.

(** [TrimSpace] removes the white space around a string: the runes removed
    on both sides are spaces, and what is left neither starts nor ends with
    one. *)
Lemma TrimSpace_Trimmed (s : string) : Trimmed s (strings.TrimSpace s).
Proof.
  rewrite TrimSpace_TrimFunc. unfold strings.TrimFunc, Trimmed.
  destruct (TrimLeftFunc_spaces s) as [H1 H2].
  destruct (TrimRightFunc_spaces (strings.TrimLeftFunc unicode.IsSpace s))
    as [H3 H4].
  exists (strings.TrimLeftFunc unicode.IsSpace s).
  split; [exact H1|]. split; [exact H3|].
  destruct H4 as [E|E]; [now left | right].
  split; [|exact E].
  destruct H2 as [Em|Hm].
  - rewrite Em, strings.TrimRightFunc_equation_1. reflexivity.
  - destruct (strings.TrimRightFunc unicode.IsSpace
                (strings.TrimLeftFunc unicode.IsSpace s)) as [|c t] eqn:Et;
      [reflexivity|].
    apply (ThenSpaces_first _ _ H3); [discriminate | exact Hm].
Qed.

(** What is trimmed is cut off at the two ends: the bytes between stay. *)
Lemma SpacesThen_suffix (s t : string) :
  SpacesThen s t -> exists l, s = l ++ t.
Proof.
  induction 1 as [s|s rest _ _ _ [l IH]].
  - now exists "".
  - exists (take (snd (utf8.DecodeRuneInString s)) s ++ l).
    now rewrite append_assoc, <- IH, take_drop.
Qed.

Lemma ThenSpaces_prefix (s t : string) :
  ThenSpaces s t -> exists r, s = t ++ r.
Proof.
  induction 1 as [s|s rest _ _ _ [r IH]].
  - exists "". now rewrite append_nil_r.
  - unfold strings.dropLast in IH.
    exists (r ++ drop (String.length s - snd (utf8.DecodeLastRuneInString s)) s).
    now rewrite <- append_assoc, <- IH, take_drop.
Qed.

Lemma Trimmed_between (s t : string) :
  Trimmed s t -> exists l r, s = l ++ t ++ r.
Proof.
  intros [m [H1 [H2 _]]].
  destruct (SpacesThen_suffix _ _ H1) as [l Hl].
  destruct (ThenSpaces_prefix _ _ H2) as [r Hr].
  exists l, r. now rewrite Hl, Hr.
Qed.

Lemma HasPrefix_split (s p : string) :
  strings.HasPrefix s p = true -> s = p ++ drop (String.length p) s.
Proof.
  revert s. induction p as [|a p IH]; intros s H; [reflexivity|].
  destruct s as [|c t]; [discriminate|]. simpl in H.
  apply andb_prop in H as [Hc Ht]. apply Ascii.eqb_eq in Hc. subst a.
  simpl. f_equal. now apply IH.
Qed.

(** C8.  Deriving the message from the flattened doc text gives the message
    derived from the doc text itself, for a constant name made of the bytes
    of an identifier. *)
Theorem C8_label_idempotent (name : string) (doc : ast.CommentGroup) :
  identBytes name = true ->
  message name
          (Some (ast.mkComment (strings.Replace nlReplacer (ast.Text doc))))
  = message name (Some doc).
Proof.
  intro Hid. unfold message. cbn [ast.Text].
  rewrite !nlReplace_flatten, (HasPrefix_flatten _ _ Hid), flatten_idempotent.
  reflexivity.
Qed.

(** C2, as amended.  When the flattened doc text does not start with the
    constant's name as a string prefix, compared byte by byte, the message
    is empty. *)
Theorem C2_prefix_mismatch_empty (name : string) (doc : ast.CommentGroup) :
  identBytes name = true ->
  strings.HasPrefix (strings.Replace nlReplacer (ast.Text doc)) name = false ->
  message name (Some doc) = "".
Proof.
  intros Hid H. rewrite nlReplace_flatten, (HasPrefix_flatten _ _ Hid) in H.
  unfold message. now rewrite H.
Qed.

(** One turn of the loop over the specs, on a spec that counts for the
    target type: each of its exported names is added with its message. *)
Lemma scanSpec_message_of_candidate (W : World) (typeName typ : string)
  (values : list constValue) (vs : ast.ValueSpec) (id : ast.Ident) :
  emits typeName typ vs = true ->
  In (Some id) (ast.Names vs) ->
  ast.Name id <> "_" ->
  IsExported W (ast.Name id) = true ->
  (ast.Doc vs = None ->
   In {| Name := ast.Name id; Msg := "" |}
      (snd (scanSpec W typeName (typ, values) vs)))
  /\ (forall doc,
      ast.Doc vs = Some doc ->
      identBytes (ast.Name id) = true ->
      strings.HasPrefix (ast.Text doc) (ast.Name id) = true ->
      exists rest,
        flattenLines (ast.Text doc) = ast.Name id ++ rest
        /\ strings.Replace nlReplacer (ast.Text doc) = flattenLines (ast.Text doc)
        /\ In {| Name := ast.Name id; Msg := strings.TrimSpace rest |}
              (snd (scanSpec W typeName (typ, values) vs))
        /\ Trimmed rest (strings.TrimSpace rest)
        /\ exists l r, rest = l ++ strings.TrimSpace rest ++ r).
Proof.
  intros Hemit Hin Hblank Hexp.
  assert (Hentry : In {| Name := ast.Name id;
                         Msg := message (ast.Name id) (ast.Doc vs) |}
                      (snd (scanSpec W typeName (typ, values) vs))).
  { rewrite scanSpec_remember, Hemit. cbn [snd]. apply in_or_app. right.
    unfold candidates. apply in_flat_map. exists (Some id). split; [exact Hin|].
    unfold candidate. apply String.eqb_neq in Hblank.
    rewrite Hblank, Hexp. now left. }
  split.
  - intro Hdoc. now rewrite Hdoc in Hentry.
  - intros doc Hdoc Hid Hpre.
    exists (drop (String.length (ast.Name id)) (flattenLines (ast.Text doc))).
    assert (Hflat : strings.HasPrefix (flattenLines (ast.Text doc)) (ast.Name id)
                    = true) by (now rewrite (HasPrefix_flatten _ _ Hid)).
    split; [now apply HasPrefix_split|].
    split; [apply nlReplace_flatten|].
    split; [|split; [apply TrimSpace_Trimmed
                    | apply Trimmed_between, TrimSpace_Trimmed]].
    rewrite Hdoc in Hentry. unfold message in Hentry.
    rewrite Hpre, nlReplace_flatten in Hentry.
    unfold strings.TrimPrefix in Hentry. now rewrite Hflat in Hentry.
Qed.

Lemma groupCandidates_In_spec (W : World) (typeName : string)
  (pre post : list ast.ValueSpec) (vs : ast.ValueSpec) (typ : string)
  (e : constValue) :
  emits typeName (rememberAll typ pre) vs = true ->
  In e (candidates W vs) ->
  In e (groupCandidates W typeName typ (pre ++ vs :: post)).
Proof.
  revert typ. induction pre as [|p pre IH]; intros typ Hemit Hin.
  - cbn [app groupCandidates]. unfold rememberAll in Hemit. simpl in Hemit.
    rewrite Hemit. apply in_or_app. now left.
  - cbn [app groupCandidates]. apply in_or_app. right.
    apply IH; [exact Hemit | exact Hin].
Qed.

(** C4.  A constant of the target type is an entry of the extractor's
    output for the package: in a constant group of the package, a spec whose
    effective type, computed from the empty remembered type over the specs
    before it, is the target type gives an entry for each of its exported
    names.  With no doc comment the message of the entry is empty.  With a
    doc comment that starts with the name, the replacer gives the doc text
    with CR LF, CR and LF each replaced by one space; that text is the name
    followed by a rest; and the message is the rest with the white-space
    runes at its two ends removed, the bytes between them unchanged. *)
Theorem C4_message_of_candidate (W : World) (typeName : string)
  (pkg : ast.Package) (specs : list ast.Spec)
  (pre post : list ast.ValueSpec) (vs : ast.ValueSpec) (id : ast.Ident) :
  wellFormed pkg = true ->
  In specs (constGroups pkg) ->
  valueSpecs specs = (pre ++ vs :: post)%list ->
  emits typeName (rememberAll "" pre) vs = true ->
  In (Some id) (ast.Names vs) ->
  ast.Name id <> "_" ->
  IsExported W (ast.Name id) = true ->
  exists values,
    parsePackage W typeName pkg = Some values
    /\ (ast.Doc vs = None ->
        In {| Name := ast.Name id; Msg := "" |} values)
    /\ (forall doc,
        ast.Doc vs = Some doc ->
        identBytes (ast.Name id) = true ->
        strings.HasPrefix (ast.Text doc) (ast.Name id) = true ->
        exists rest,
          flattenLines (ast.Text doc) = ast.Name id ++ rest
          /\ strings.Replace nlReplacer (ast.Text doc)
             = flattenLines (ast.Text doc)
          /\ In {| Name := ast.Name id; Msg := strings.TrimSpace rest |} values
          /\ Trimmed rest (strings.TrimSpace rest)
          /\ exists l r, rest = l ++ strings.TrimSpace rest ++ r).
Proof.
  intros Hwf Hgroup Hsplit Hemit Hin Hblank Hexp.
  exists (candidatesOf W typeName (constGroups pkg)).
  split; [now apply parsePackage_groups|].
  assert (Hsub : forall e,
             In e (snd (scanSpec W typeName (rememberAll "" pre, []) vs)) ->
             In e (candidatesOf W typeName (constGroups pkg))).
  { intros e He. rewrite scanSpec_remember, Hemit in He. cbn [snd app] in He.
    unfold candidatesOf. apply in_flat_map. exists specs.
    split; [exact Hgroup|]. rewrite Hsplit.
    now apply groupCandidates_In_spec. }
  destruct (scanSpec_message_of_candidate W typeName (rememberAll "" pre) []
              vs id Hemit Hin Hblank Hexp) as [Hnone Hdoc].
  split.
  - intro Hd. apply Hsub, Hnone, Hd.
  - intros doc Hd Hid Hpre.
    destruct (Hdoc doc Hd Hid Hpre) as (rest & H1 & H2 & H3 & H4 & H5).
    exists rest. repeat split; try assumption. now apply Hsub.
Qed.

(** ** The generated method and the output file *)

(** C3.  For the example package, in a world where the directory holds
    that one package, the check passes, [%q] writes the two messages between
    quotes, the formatter leaves the rendered text as it is and the file can
    be written: the extractor gives the two constants with the messages
    "Bad Request" and "Not Found", the run writes the method rendered from
    them by the template, and that method returns "Bad Request" on
    [StatusBadRequest], "Not Found" on [StatusNotFound] and "Unknown" on
    every other value. *)
Theorem C3_status_code_example (W : World) (dir : string) :
  os_Stat W dir = Some true ->
  parser_ParseDir W dir = Some [("http", httpPackage)] ->
  types_Check W dir httpPackage = true ->
  strconv_Quote W "Bad Request" = quote ++ "Bad Request" ++ quote ->
  strconv_Quote W "Not Found" = quote ++ "Not Found" ++ quote ->
  format_Source W httpGenerated = Some httpGenerated ->
  ioutil_WriteFile W (outputNameOf W "StatusCode" "" dir 1 "http") = true ->
  exists consts text,
    parsePackage W "StatusCode" httpPackage = Some consts
    /\ consts = [ {| Name := "StatusBadRequest"; Msg := "Bad Request" |};
                  {| Name := "StatusNotFound"; Msg := "Not Found" |} ]
    /\ fileTemplate W {| PackageName := "http"; TypeName := "StatusCode";
                         Reciever := "s"; Consts := consts |} = text
    /\ main W "StatusCode" "" [dir] []
       = ([(outputNameOf W "StatusCode" "" dir 1 "http", text)], Ret tt)
    /\ gosrc.callString text httpValueOf 400 = Some "Bad Request"
    /\ gosrc.callString text httpValueOf 404 = Some "Not Found"
    /\ (forall v : Z, v <> 400%Z -> v <> 404%Z ->
                      gosrc.callString text httpValueOf v = Some "Unknown").
Proof.
  intros Hstat Hdir Hcheck Hq1 Hq2 Hfmt Hwrite.
  assert (Hp : parsePackage W "StatusCode" httpPackage
               = Some [ {| Name := "StatusBadRequest"; Msg := "Bad Request" |};
                        {| Name := "StatusNotFound"; Msg := "Not Found" |} ])
    by (vm_compute; reflexivity).
  assert (Hr : reciever W "StatusCode" = Some "s") by (vm_compute; reflexivity).
  assert (Ht : fileTemplate W
                 {| PackageName := "http"; TypeName := "StatusCode";
                    Reciever := "s";
                    Consts := [ {| Name := "StatusBadRequest";
                                   Msg := "Bad Request" |};
                                {| Name := "StatusNotFound";
                                   Msg := "Not Found" |} ] |}
               = httpGenerated).
  { unfold fileTemplate, caseText.
    cbn [map Consts Name Msg PackageName TypeName Reciever].
    rewrite Hq1, Hq2. vm_compute. reflexivity. }
  exists [ {| Name := "StatusBadRequest"; Msg := "Bad Request" |};
           {| Name := "StatusNotFound"; Msg := "Not Found" |} ], httpGenerated.
  split; [exact Hp|]. split; [reflexivity|]. split; [exact Ht|].
  split.
  - unfold main, isDirectory, bind. cbn [String.eqb Ascii.eqb Bool.eqb hd].
    rewrite Hstat. cbn [ret negb]. unfold parseDir. rewrite Hdir.
    cbn [forEach List.length]. unfold bind, parseDirBody, checkPackages.
    rewrite Hcheck. unfold bind. cbn [ret]. rewrite Hp. cbn [ret].
    cbn [List.length Nat.eqb]. rewrite Hr. cbn [ret].
    unfold genfile. rewrite Ht, Hfmt, Hwrite. reflexivity.
  - assert (Hs : map gosrc.classify (gosrc.lines httpGenerated)
                 = [gosrc.SOther; gosrc.SOther; gosrc.SOther; gosrc.SOther;
                    gosrc.SOther; gosrc.SOther; gosrc.SFunc "s";
                    gosrc.SSwitch "s";
                    gosrc.SCase "StatusBadRequest";
                    gosrc.SReturn (quote ++ "Bad Request" ++ quote);
                    gosrc.SCase "StatusNotFound";
                    gosrc.SReturn (quote ++ "Not Found" ++ quote);
                    gosrc.SDefault;
                    gosrc.SReturn (quote ++ "Unknown" ++ quote);
                    gosrc.SOther; gosrc.SOther; gosrc.SOther])
      by (vm_compute; reflexivity).
    unfold gosrc.callString. rewrite Hs.
    split; [vm_compute; reflexivity|]. split; [vm_compute; reflexivity|].
    intros v H1 H2. unfold gosrc.runStmts.
    cbn [gosrc.afterFunc gosrc.afterSwitch].
    change (String.eqb "s" "s") with true. cbv iota.
    cbn [gosrc.selectCase].
    change (httpValueOf "StatusBadRequest") with (Some 400%Z).
    change (httpValueOf "StatusNotFound") with (Some 404%Z).
    cbv beta iota.
    destruct (Z.eqb_spec 400 v) as [E|_]; [now elim H1|].
    destruct (Z.eqb_spec 404 v) as [E|_]; [now elim H2|].
    vm_compute. reflexivity.
Qed.

(** A run on the directory of the example writes the file shown in the
    documentation of main.go, named after the lower-cased type. *)
Lemma http_generated_file :
  main plainWorld "StatusCode" "" ["http"] []
  = ([("http/statuscode_string_gen.go", httpGenerated)], Ret tt).
Proof. vm_compute. reflexivity. Qed.

(** C7.  A package that passes the check and has no constant of the target
    type writes no file and ends normally: the loop goes on with the next
    package, and a run over that package alone returns with nothing
    written. *)
Theorem C7_no_match_no_file (W : World) (typeName output dir pkgName : string)
  (pkg : ast.Package) :
  types_Check W dir pkg = true ->
  parsePackage W typeName pkg = Some [] ->
  (forall numPkgs fs,
      parseDirBody W typeName output dir numPkgs (pkgName, pkg) fs
      = (fs, Ret tt))
  /\ (forall numPkgs rest fs,
      forEach (parseDirBody W typeName output dir numPkgs)
              ((pkgName, pkg) :: rest) fs
      = forEach (parseDirBody W typeName output dir numPkgs) rest fs)
  /\ (forall fs,
      parser_ParseDir W dir = Some [(pkgName, pkg)] ->
      parseDir W typeName output dir fs = (fs, Ret tt)).
Proof.
  intros Hcheck Hnone.
  assert (Hbody : forall numPkgs fs,
             parseDirBody W typeName output dir numPkgs (pkgName, pkg) fs
             = (fs, Ret tt)).
  { intros numPkgs fs. unfold parseDirBody, checkPackages, bind.
    now rewrite Hcheck, Hnone. }
  repeat split.
  - exact Hbody.
  - intros numPkgs rest fs. cbn [forEach]. unfold bind at 1.
    now rewrite Hbody.
  - intros fs Hdir. unfold parseDir. rewrite Hdir. cbn [forEach].
    unfold bind at 1. now rewrite Hbody.
Qed.

(** ** Lower-casing the name of the output file *)

Lemma first_lo (b : Z) (sz : nat) (lo hi : Z) :
  utf8.first b = utf8.seq sz lo hi -> (0x80 <= lo)%Z.
Proof.
  unfold utf8.first.
  repeat match goal with
         | |- context [if ?x then _ else _] => destruct x
         end; intro H; inversion H; lia.
Qed.

(** An ASCII byte after a string does not change how its first rune is
    decoded: the byte continues no sequence. *)
Lemma Decode_append_ascii (a : string) (d : ascii) (b : string) :
  a <> "" ->
  (byte d < 0x80)%Z ->
  utf8.DecodeRuneInString (a ++ String d b) = utf8.DecodeRuneInString a.
Proof.
  intros Ha Hd. destruct a as [|c0 a]; [congruence|]. clear Ha.
  assert (Hout : forall lo hi, (0x80 <= lo)%Z ->
                               utf8.outside lo hi (byte d) = true).
  { intros lo hi Hlo. unfold utf8.outside.
    destruct (Z.ltb_spec (byte d) lo); [reflexivity | lia]. }
  unfold utf8.DecodeRuneInString. cbn [String.append].
  destruct (utf8.first (byte c0)) as [| |sz lo hi] eqn:Ef; try reflexivity.
  pose proof (first_lo _ _ _ _ Ef) as Hlo.
  destruct (first_size _ _ _ _ Ef) as [E|[E|E]]; subst sz.
  - destruct a as [|c1 a]; cbn; rewrite ?Hout by lia;
      repeat match goal with
             | |- context [if ?x then _ else _] => destruct x
             end; reflexivity.
  - destruct a as [|c1 [|c2 a]]; cbn; rewrite ?Hout by lia;
      repeat match goal with
             | |- context [if ?x then _ else _] => destruct x
             end; reflexivity.
  - destruct a as [|c1 [|c2 [|c3 a]]]; cbn; rewrite ?Hout by lia;
      repeat match goal with
             | |- context [if ?x then _ else _] => destruct x
             end; reflexivity.
Qed.

Lemma Decode_width_le (s : string) :
  snd (utf8.DecodeRuneInString s) <= String.length s.
Proof.
  destruct s as [|c0 s]; [simpl; lia|].
  unfold utf8.DecodeRuneInString.
  destruct (utf8.first (byte c0)) as [| |sz lo hi] eqn:Ef;
    try (cbn [snd String.length]; lia).
  destruct (first_size _ _ _ _ Ef) as [E|[E|E]]; subst sz;
    destruct s as [|c1 [|c2 [|c3 s]]]; cbn;
    repeat match goal with
           | |- context [if ?x then _ else _] => destruct x
           end; cbn; lia.
Qed.

Lemma drop_append (n : nat) (a b : string) :
  n <= String.length a -> drop n (a ++ b) = drop n a ++ b.
Proof.
  revert a. induction n as [|n IH]; intros [|c a] H; simpl in *;
    try reflexivity; try lia.
  apply IH. lia.
Qed.

(** [Map] over a string followed by ASCII bytes. *)
Lemma Map_append_ascii (f : Z -> Z) (a : string) (d : ascii) (b : string) :
  (byte d < 0x80)%Z ->
  strings.Map f (a ++ String d b)
  = strings.Map f a ++ strings.Map f (String d b).
Proof.
  intro Hd.
  assert (H : forall n a, String.length a <= n ->
             strings.Map f (a ++ String d b)
             = strings.Map f a ++ strings.Map f (String d b)).
  { induction n as [|n IH]; intros [|c t] Hn; simpl in Hn; try lia;
      try reflexivity.
    cbn [String.append].
    rewrite (strings.Map_equation_2 f c (t ++ String d b)).
    rewrite (strings.Map_equation_2 f c t).
    change (String c (t ++ String d b)) with (String c t ++ String d b).
    rewrite (Decode_append_ascii (String c t) d b) by (discriminate || exact Hd).
    pose proof (Decode_width_le (String c t)) as Hle.
    pose proof (Decode_width c t) as Hge. cbn [String.length] in Hle.
    rewrite drop_append by lia.
    rewrite IH by (rewrite length_drop; lia).
    rewrite append_assoc. reflexivity. }
  apply (H (String.length a)). lia.
Qed.

Lemma chr_byte (c : ascii) : chr (byte c) = c.
Proof. unfold chr, byte. now rewrite N2Z.id, ascii_N_embedding. Qed.

Lemma Map_ascii_lower (lowerCase : Z -> Z) (b : string) :
  strings.isASCII b = true ->
  strings.hasUpper b = false ->
  strings.Map (unicode.ToLower lowerCase) b = b.
Proof.
  induction b as [|c t IH]; intros Ha Hu; [reflexivity|].
  simpl in Ha, Hu. apply andb_prop in Ha as [Hc Ht].
  apply orb_false_elim in Hu as [Hcu Htu].
  rewrite strings.Map_equation_2.
  assert (Hself : (utf8.RuneSelf <=? byte c)%Z = false).
  { apply Z.ltb_lt in Hc. apply Z.leb_gt. exact Hc. }
  rewrite (Decode_ascii _ _ Hself). cbn [fst snd Nat.pred drop].
  rewrite (IH Ht Htu).
  assert (Hlow : unicode.ToLower lowerCase (byte c) = byte c).
  { unfold unicode.ToLower, unicode.MaxASCII, unicode.within.
    unfold utf8.RuneSelf in Hself. apply Z.leb_gt in Hself.
    destruct (Z.leb_spec (byte c) 127); [|lia].
    unfold strings.isUpperByte in Hcu. now rewrite Hcu. }
  rewrite Hlow.
  assert (Hpos : (0 <= byte c)%Z) by (unfold byte; lia).
  destruct (Z.leb_spec 0 (byte c)) as [_|]; [|lia].
  unfold utf8.EncodeRune.
  unfold utf8.RuneSelf in Hself. apply Z.leb_gt in Hself.
  destruct (Z.leb_spec 0 (byte c)) as [_|]; [|lia].
  destruct (Z.leb_spec (byte c) 127) as [_|]; [|lia].
  cbn [andb String.append]. now rewrite chr_byte.
Qed.

Lemma isASCII_append (a b : string) :
  strings.isASCII (a ++ b) = strings.isASCII a && strings.isASCII b.
Proof.
  induction a as [|c a IH]; simpl; [reflexivity|].
  now rewrite IH, andb_assoc.
Qed.

Lemma hasUpper_append (a b : string) :
  strings.hasUpper (a ++ b) = strings.hasUpper a || strings.hasUpper b.
Proof.
  induction a as [|c a IH]; simpl; [reflexivity|].
  now rewrite IH, orb_assoc.
Qed.

Lemma lowerBytes_append (a b : string) :
  strings.lowerBytes (a ++ b) = strings.lowerBytes a ++ strings.lowerBytes b.
Proof.
  induction a as [|c a IH]; simpl; [reflexivity|]. now rewrite IH.
Qed.

Lemma lowerBytes_fixed (b : string) :
  strings.hasUpper b = false -> strings.lowerBytes b = b.
Proof.
  induction b as [|c b IH]; simpl; intro H; [reflexivity|].
  apply orb_false_elim in H as [Hc Hb]. now rewrite Hc, (IH Hb).
Qed.

(** Lower-casing a string followed by ASCII bytes with no capital among
    them lower-cases the string and keeps the bytes. *)
Lemma ToLower_suffix (lowerCase : Z -> Z) (a b : string) :
  strings.isASCII b = true ->
  strings.hasUpper b = false ->
  strings.ToLower lowerCase (a ++ b) = strings.ToLower lowerCase a ++ b.
Proof.
  intros Ha Hu. unfold strings.ToLower.
  rewrite isASCII_append, hasUpper_append, Ha, Hu, andb_true_r, orb_false_r.
  destruct (strings.isASCII a) eqn:Ea.
  - destruct (strings.hasUpper a); [|reflexivity].
    now rewrite lowerBytes_append, (lowerBytes_fixed _ Hu).
  - destruct b as [|d b].
    + now rewrite !append_nil_r.
    + simpl in Ha. apply andb_prop in Ha as [Hd Hb].
      apply Z.ltb_lt in Hd.
      rewrite (Map_append_ascii _ _ _ _ Hd).
      rewrite (Map_ascii_lower lowerCase (String d b)); [reflexivity| |exact Hu].
      simpl. apply Z.ltb_lt in Hd. now rewrite Hd, Hb.
Qed.

(** The name of the output file when none is given.  With one package it
    is the file [<lower-cased type name>_string_gen.go] joined to the
    directory; with more packages the package name and an underscore are put
    before that path. *)
Lemma outputNameOf_default (W : World) (typeName dir pkgName : string)
  (numPkgs : nat) :
  outputNameOf W typeName "" dir numPkgs pkgName
  = let path :=
        filepath.Join dir (strings.ToLower (unicode_lowerCase W) typeName
                           ++ "_string_gen.go") in
    if (1 <? numPkgs)%nat then pkgName ++ "_" ++ path else path.
Proof.
  unfold outputNameOf. cbn [String.eqb].
  now rewrite ToLower_suffix.
Qed.

(** C6, at an input where the code leaves the claim.  With two packages in
    the directory [pkg] and no output name given, the file of the package
    [http] is named by the package name put before the whole path: it is a
    file of a directory [http_pkg], not the file
    [pkg/http_statuscode_string_gen.go] of the source directory; where only
    the source directory can be written, the run ends in [log.Fatal] with
    no file.  With one package the name is the default one, in the source
    directory. *)
Theorem C6_prefix_before_path (W : World) :
  outputNameOf W "StatusCode" "" "pkg" 2 "http"
  = "http_pkg/statuscode_string_gen.go"
  /\ filepath.Join "pkg" ("http_" ++ "statuscode_string_gen.go")
     = "pkg/http_statuscode_string_gen.go"
  /\ main twoPackageWorld "StatusCode" "" ["pkg"] [] = ([], Exit 1)
  /\ outputNameOf W "StatusCode" "" "pkg" 1 "http"
     = "pkg/statuscode_string_gen.go".
Proof. repeat split; vm_compute; reflexivity. Qed.

(** The receiver of a type name that starts with an ASCII byte is that
    byte, lower-cased. *)
Lemma reciever_ascii (W : World) (c : ascii) (t : string) :
  (byte c < 0x80)%Z ->
  reciever W (String c t)
  = Some (String (if strings.isUpperByte (byte c)
                  then chr (byte c + 0x20) else c) "").
Proof.
  intro H. unfold reciever.
  destruct c as [b0 b1 b2 b3 b4 b5 b6 b7].
  destruct b0, b1, b2, b3, b4, b5, b6, b7;
    try (vm_compute in H; discriminate H); vm_compute; reflexivity.
Qed.

(** C9, at inputs where the code leaves the claim.  The receiver is made
    from the first byte of the type name, read as a code point.  For the
    type name of the Hebrew letters alef and bet that byte is 0xD7, and the
    receiver is U+00D7, the multiplication sign, which is no identifier and
    is not the first character U+05D0 of the name.  For [Élan] the receiver
    is [ã], from the byte 0xC3, and not [é]. *)
Theorem C9_receiver_from_first_byte (W : World) :
  reciever W alefBet = Some (utf8.EncodeRune 0xD7)
  /\ utf8.DecodeRuneInString alefBet = (0x5D0%Z, 2)
  /\ reciever W "Élan" = Some "ã"
  /\ utf8.DecodeRuneInString "Élan" = (0xC9%Z, 2)
  /\ utf8.EncodeRune (unicode.ToLower (unicode_lowerCase W) 0xC9) = "é".
Proof. repeat split; vm_compute; reflexivity. Qed.

(** ** The theorems at concrete inputs *)

Lemma C1_witness :
  "StatusCode" <> ""
  /\ parsePackage plainWorld "StatusCode" httpPackage
     = Some (flat_map
               (fun g => snd (fold_left (scanSpec plainWorld "StatusCode")
                                        (valueSpecs g) ("", [])))
               (constGroups httpPackage)).
Proof.
  assert (H : "StatusCode" <> "") by discriminate.
  split; [exact H|].
  destruct (C1_remembered_type plainWorld "StatusCode" H)
    as (_ & _ & _ & _ & _ & Hpkg).
  apply Hpkg. reflexivity.
Defined.

Lemma C10_witness :
  scanSpecs plainWorld "T"
            [ast.ValueSpecOf typedSpec; ast.ValueSpecOf qualifiedSpec;
             ast.ValueSpecOf bareSpec] ("", [])
  = scanSpecs plainWorld "T"
              [ast.ValueSpecOf typedSpec; ast.ValueSpecOf bareSpec] ("", []).
Proof.
  destruct (C10_compound_type_skipped plainWorld "T" qualifiedSpec
              (ast.SelectorExpr (ast.IdentExpr (ast.mkIdent "pkg"))
                                (ast.mkIdent "U"))
              eq_refl eq_refl) as (_ & Hgroup & _).
  exact (Hgroup [ast.ValueSpecOf typedSpec] [ast.ValueSpecOf bareSpec] ("", [])).
Defined.

Lemma C5_witness :
  "StatusNotFound" <> "_" /\ IsExported plainWorld "StatusNotFound" = true.
Proof.
  apply (C5_no_blank_no_unexported plainWorld "StatusCode" httpPackage
           [ {| Name := "StatusBadRequest"; Msg := "Bad Request" |};
             {| Name := "StatusNotFound"; Msg := "Not Found" |} ]
           {| Name := "StatusNotFound"; Msg := "Not Found" |}).
  - vm_compute. reflexivity.
  - right. left. reflexivity.
Defined.

Lemma C8_witness :
  message "StatusBadRequest"
          (Some (ast.mkComment (strings.Replace nlReplacer (ast.Text brokenDoc))))
  = message "StatusBadRequest" (Some brokenDoc)
  /\ message "StatusBadRequest" (Some brokenDoc) = "Bad Request".
Proof.
  split.
  - apply (C8_label_idempotent "StatusBadRequest" brokenDoc). reflexivity.
  - vm_compute. reflexivity.
Defined.

Lemma C2_witness :
  message "StatusNotFound" (Some brokenDoc) = "".
Proof.
  apply (C2_prefix_mismatch_empty "StatusNotFound" brokenDoc).
  - reflexivity.
  - vm_compute. reflexivity.
Defined.

(** C2, as stated, fails: the flattened doc text "OKAY means fine " does not
    start with the token [OK], and the message of [OK] is "AY means fine". *)
Lemma C2_counterexample :
  startsWithToken (strings.Replace nlReplacer ("OKAY means fine" ++ nl)) "OK"
  = false
  /\ parsePackage plainWorld "Status" okPackage
     = Some [ {| Name := "OK"; Msg := "AY means fine" |} ]
  /\ ~ (forall name doc,
         startsWithToken (strings.Replace nlReplacer (ast.Text doc)) name = false ->
         message name (Some doc) = "").
Proof.
  split; [vm_compute; reflexivity|].
  split; [vm_compute; reflexivity|].
  intro H.
  specialize (H "OK" (ast.mkComment ("OKAY means fine" ++ nl)) eq_refl).
  vm_compute in H. discriminate H.
Qed.

Lemma C3_witness :
  exists consts text,
    parsePackage plainWorld "StatusCode" httpPackage = Some consts
    /\ consts = [ {| Name := "StatusBadRequest"; Msg := "Bad Request" |};
                  {| Name := "StatusNotFound"; Msg := "Not Found" |} ]
    /\ fileTemplate plainWorld
         {| PackageName := "http"; TypeName := "StatusCode";
            Reciever := "s"; Consts := consts |} = text
    /\ main plainWorld "StatusCode" "" ["http"] []
       = ([(outputNameOf plainWorld "StatusCode" "" "http" 1 "http", text)],
          Ret tt)
    /\ gosrc.callString text httpValueOf 400 = Some "Bad Request"
    /\ gosrc.callString text httpValueOf 404 = Some "Not Found"
    /\ (forall v : Z, v <> 400%Z -> v <> 404%Z ->
                      gosrc.callString text httpValueOf v = Some "Unknown").
Proof.
  apply (C3_status_code_example plainWorld "http"); reflexivity.
Defined.

Lemma C4_witness :
  (exists values,
      parsePackage plainWorld "T" undocumentedPackage = Some values
      /\ In {| Name := "Z"; Msg := "" |} values)
  /\ (exists values,
        parsePackage plainWorld "StatusCode" httpPackage = Some values
        /\ In {| Name := "StatusBadRequest"; Msg := "Bad Request" |} values).
Proof.
  split.
  - destruct (C4_message_of_candidate plainWorld "T" undocumentedPackage
                [ast.ValueSpecOf typedSpec; ast.ValueSpecOf bareSpec]
                [typedSpec] [] bareSpec (ast.mkIdent "Z"))
      as (values & Hp & Hnone & _).
    + reflexivity.
    + left. reflexivity.
    + reflexivity.
    + reflexivity.
    + left. reflexivity.
    + discriminate.
    + reflexivity.
    + exists values. split; [exact Hp | apply Hnone; reflexivity].
  - destruct (C4_message_of_candidate plainWorld "StatusCode" httpPackage
                [ statusSpec "StatusBadRequest" "StatusBadRequest Bad Request" "400";
                  statusSpec "StatusNotFound" "StatusNotFound Not Found" "404" ]
                [] [docSpec'] docSpec (ast.mkIdent "StatusBadRequest"))
      as (values & Hp & _ & Hdoc).
    + reflexivity.
    + left. reflexivity.
    + reflexivity.
    + reflexivity.
    + left. reflexivity.
    + discriminate.
    + reflexivity.
    + exists values. split; [exact Hp|].
      destruct (Hdoc _ eq_refl eq_refl eq_refl) as (rest & Hrest & _ & Hin & _).
      vm_compute in Hrest. inversion Hrest; subst rest. exact Hin.
Defined.

Lemma C7_witness :
  main plainWorld "Other" "" ["http"] [] = ([], Ret tt).
Proof.
  destruct (C7_no_match_no_file plainWorld "Other" "" "http" "http" httpPackage)
    as (_ & _ & Hrun).
  - reflexivity.
  - vm_compute. reflexivity.
  - exact (Hrun [] eq_refl).
Defined.

(** * Further properties of the program *)

(** ** The extraction *)

Lemma scanDecl_panic (W : World) (typeName : string) (d : ast.Decl)
  (values : list constValue) :
  forallb (forallb isValueSpec) (constGroup d) = false ->
  scanDecl W typeName values d = None.
Proof.
  destruct d as [|tok specs|n]; simpl; try discriminate.
  destruct tok; simpl; try discriminate.
  rewrite andb_true_r. intro H.
  now rewrite (scanSpecs_panic W typeName _ _ H).
Qed.

Lemma scanDecls_panic (W : World) (typeName : string)
  (decls : list ast.Decl) (values : list constValue) :
  forallb (forallb isValueSpec) (groupsOf decls) = false ->
  scanDecls W typeName decls values = None.
Proof.
  unfold groupsOf. revert values.
  induction decls as [|d decls IH]; intros values H; simpl in *.
  - discriminate.
  - rewrite forallb_app in H.
    destruct (forallb (forallb isValueSpec) (constGroup d)) eqn:Hd.
    + rewrite (scanDecl_group W typeName _ _ Hd). now apply IH.
    + now rewrite (scanDecl_panic W typeName _ _ Hd).
Qed.

Lemma scanFiles_panic (W : World) (typeName : string)
  (files : list (string * ast.File)) (values : list constValue) :
  forallb (forallb isValueSpec) (constGroups (ast.mkPackage files)) = false ->
  scanFiles W typeName files values = None.
Proof.
  unfold constGroups. simpl. revert values.
  induction files as [|[name f] files IH]; intros values H; simpl in *.
  - discriminate.
  - rewrite forallb_app in H.
    destruct (forallb (forallb isValueSpec) (flat_map constGroup (ast.Decls f)))
      eqn:Hf.
    + rewrite (scanDecls_groups W typeName _ _ Hf). now apply IH.
    + now rewrite (scanDecls_panic W typeName _ _ Hf).
Qed.

Lemma parsePackage_panic (W : World) (typeName : string) (pkg : ast.Package) :
  wellFormed pkg = false -> parsePackage W typeName pkg = None.
Proof.
  intro H. unfold parsePackage. destruct pkg as [files].
  now apply scanFiles_panic.
Qed.

(** X1.  The extractor panics exactly on a package in which a constant
    declaration holds a spec that is not a value spec (the unchecked type
    assertion of line 198); on every other package it returns its list. *)
Theorem X1_parsePackage_panics_iff (W : World) (typeName : string)
  (pkg : ast.Package) :
  parsePackage W typeName pkg = None <-> wellFormed pkg = false.
Proof.
  split.
  - intro H. destruct (wellFormed pkg) eqn:Hwf; [|reflexivity].
    rewrite (parsePackage_groups W typeName _ Hwf) in H. discriminate.
  - apply parsePackage_panic.
Qed.

Lemma groupCandidates_In (W : World) (typeName : string)
  (vss : list ast.ValueSpec) (typ : string) (e : constValue) :
  In e (groupCandidates W typeName typ vss) ->
  exists vs, In vs vss /\ In e (candidates W vs).
Proof.
  revert typ. induction vss as [|vs vss IH]; intros typ H; simpl in H.
  - contradiction.
  - apply in_app_or in H as [H|H].
    + destruct (emits typeName typ vs); [|contradiction].
      exists vs. split; [now left | exact H].
    + destruct (IH _ H) as [vs' [Hin He]].
      exists vs'. split; [now right | exact He].
Qed.

(** X2.  Every entry of the output comes from a name of a value spec of a
    constant declaration of the package: it has that name, and its message
    is derived from that name and the doc comment of that same spec. *)
Theorem X2_entries_come_from_specs (W : World) (typeName : string)
  (pkg : ast.Package) (values : list constValue) (e : constValue) :
  parsePackage W typeName pkg = Some values ->
  In e values ->
  exists specs vs id,
    In specs (constGroups pkg)
    /\ In (ast.ValueSpecOf vs) specs
    /\ In (Some id) (ast.Names vs)
    /\ e = {| Name := ast.Name id;
              Msg := message (ast.Name id) (ast.Doc vs) |}.
Proof.
  intros Hp Hin.
  destruct (wellFormed pkg) eqn:Hwf.
  - rewrite (parsePackage_groups W typeName _ Hwf) in Hp.
    inversion Hp; subst values. clear Hp.
    unfold candidatesOf in Hin. apply in_flat_map in Hin as [specs [Hg Hin]].
    apply groupCandidates_In in Hin as [vs [Hvs Hin]].
    unfold candidates in Hin. apply in_flat_map in Hin as [n [Hn Hin]].
    destruct n as [id|]; simpl in Hin; [|contradiction].
    destruct (String.eqb (ast.Name id) "_"); [contradiction|].
    destruct (IsExported W (ast.Name id)); [|contradiction].
    destruct Hin as [<-|[]].
    exists specs, vs, id. repeat split; try assumption.
    unfold valueSpecs in Hvs. apply in_flat_map in Hvs as [s [Hs Hin]].
    destruct s as [p|vs'|n t]; simpl in Hin; try contradiction.
    destruct Hin as [<-|[]]. exact Hs.
  - rewrite (parsePackage_panic W typeName _ Hwf) in Hp. discriminate.
Qed.

Lemma bare_run (W : World) (typeName typ : string)
  (bares : list ast.ValueSpec) :
  forallb isBare bares = true ->
  rememberAll typ bares = typ
  /\ groupCandidates W typeName typ bares
     = if String.eqb typ typeName then flat_map (candidates W) bares else [].
Proof.
  unfold rememberAll.
  induction bares as [|b bares IH]; intro H; simpl in *.
  - now destruct (String.eqb typ typeName).
  - apply andb_prop in H as [Hb Hrest].
    unfold isBare in Hb. unfold remember, emits.
    destruct (kindOf b); try discriminate.
    destruct (IH Hrest) as [IH1 IH2]. split; [exact IH1|].
    rewrite IH2. destruct (String.eqb typ typeName); reflexivity.
Qed.

(** X3.  The enumeration pattern: in a group that starts from a spec typed
    with the target type and goes on with bare names, every spec is scanned,
    and the entries are the candidate names of all the specs in source
    order; the remembered type at the end is the target type. *)
Theorem X3_typed_then_bare (W : World) (typeName typ : string)
  (vs : ast.ValueSpec) (bares : list ast.ValueSpec)
  (values : list constValue) :
  kindOf vs = SimpleTyped typeName ->
  forallb isBare bares = true ->
  scanSpecs W typeName (map ast.ValueSpecOf (vs :: bares)) (typ, values)
  = Some (typeName, (values ++ flat_map (candidates W) (vs :: bares))%list).
Proof.
  intros Hvs Hb.
  assert (Hmap : forall l, valueSpecs (map ast.ValueSpecOf l) = l).
  { induction l as [|x l IH]; simpl; [reflexivity | now rewrite IH]. }
  assert (Hwf : forall l, forallb isValueSpec (map ast.ValueSpecOf l) = true).
  { induction l as [|x l IH]; simpl; [reflexivity | exact IH]. }
  rewrite (scanSpecs_group W typeName _ _ _ (Hwf _)), Hmap.
  assert (Hr : remember typ vs = typeName) by (unfold remember; now rewrite Hvs).
  assert (He : emits typeName typ vs = true)
    by (unfold emits; rewrite Hvs; apply String.eqb_refl).
  destruct (bare_run W typeName typeName bares Hb) as [H1 H2].
  unfold rememberAll in *. cbn [fold_left groupCandidates flat_map].
  rewrite Hr, He, H1, H2, String.eqb_refl. reflexivity.
Qed.

(** X4.  After a spec with a value and no type the bare names that follow
    are not extracted, whatever type was remembered before it: the group
    continues with no entry added and the empty remembered type. *)
Theorem X4_untyped_value_resets (W : World) (typeName typ : string)
  (u : ast.ValueSpec) (bares : list ast.ValueSpec)
  (values : list constValue) :
  typeName <> "" ->
  kindOf u = UntypedValue ->
  forallb isBare bares = true ->
  scanSpecs W typeName (map ast.ValueSpecOf (u :: bares)) (typ, values)
  = Some ("", values).
Proof.
  intros Hne Hu Hb.
  assert (Hmap : forall l, valueSpecs (map ast.ValueSpecOf l) = l).
  { induction l as [|x l IH]; simpl; [reflexivity | now rewrite IH]. }
  assert (Hwf : forall l, forallb isValueSpec (map ast.ValueSpecOf l) = true).
  { induction l as [|x l IH]; simpl; [reflexivity | exact IH]. }
  rewrite (scanSpecs_group W typeName _ _ _ (Hwf _)), Hmap.
  assert (Hr : remember typ u = "") by (unfold remember; now rewrite Hu).
  assert (He : emits typeName typ u = false) by (unfold emits; now rewrite Hu).
  destruct (bare_run W typeName "" bares Hb) as [H1 H2].
  unfold rememberAll in *. cbn [fold_left groupCandidates].
  rewrite Hr, He, H1, H2.
  destruct typeName; [now elim Hne|]. simpl. now rewrite app_nil_r.
Qed.

(** X5.  Declarations that are not constant declarations (imports, types,
    variables, functions) are never looked into: the extractor gives the
    same result, panic included, on the package with only its constant
    declarations left. *)
Theorem X5_only_const_decls_matter (W : World) (typeName : string)
  (pkg : ast.Package) :
  parsePackage W typeName (constDeclsOnly pkg) = parsePackage W typeName pkg.
Proof.
  unfold parsePackage, constDeclsOnly. destruct pkg as [files]. simpl.
  assert (Hd : forall decls values,
             scanDecls W typeName (filter isConstDecl decls) values
             = scanDecls W typeName decls values).
  { induction decls as [|d decls IH]; intro values; [reflexivity|].
    destruct d as [|tok specs|n]; simpl; try apply IH.
    destruct tok; simpl; try apply IH.
    destruct (scanSpecs W typeName specs ("", values)) as [[t v]|];
      [apply IH | reflexivity]. }
  generalize (@nil constValue) as values.
  induction files as [|[name f] files IH]; intro values; [reflexivity|].
  simpl. rewrite Hd.
  destruct (scanDecls W typeName (ast.Decls f) values); [apply IH | reflexivity].
Qed.

Lemma scanSpecs_frame (W : World) (typeName : string)
  (specs : list ast.Spec) (typ : string) (acc values : list constValue) :
  scanSpecs W typeName specs (typ, (acc ++ values)%list)
  = match scanSpecs W typeName specs (typ, values) with
    | Some (t, v) => Some (t, (acc ++ v)%list)
    | None => None
    end.
Proof.
  revert typ values.
  induction specs as [|s specs IH]; intros typ values; [reflexivity|].
  cbn [scanSpecs]. destruct (asValueSpec s) as [vs|]; [|reflexivity].
  rewrite !scanSpec_remember, <- app_assoc. apply IH.
Qed.

Lemma scanDecls_frame (W : World) (typeName : string)
  (decls : list ast.Decl) (acc values : list constValue) :
  scanDecls W typeName decls (acc ++ values)%list
  = option_map (app acc) (scanDecls W typeName decls values).
Proof.
  revert values. induction decls as [|d decls IH]; intro values;
    [reflexivity|].
  cbn [scanDecls].
  assert (Hd : scanDecl W typeName (acc ++ values)%list d
               = option_map (app acc) (scanDecl W typeName values d)).
  { destruct d as [|tok specs|n]; try reflexivity. unfold scanDecl.
    destruct (ast.tokenIsCONST tok); [|reflexivity].
    rewrite scanSpecs_frame.
    now destruct (scanSpecs W typeName specs ("", values)) as [[t v]|]. }
  rewrite Hd.
  destruct (scanDecl W typeName values d) as [v|]; [apply IH | reflexivity].
Qed.

Lemma scanFiles_frame (W : World) (typeName : string)
  (files : list (string * ast.File)) (acc values : list constValue) :
  scanFiles W typeName files (acc ++ values)%list
  = option_map (app acc) (scanFiles W typeName files values).
Proof.
  revert values. induction files as [|[name f] files IH]; intro values;
    [reflexivity|].
  cbn [scanFiles]. rewrite scanDecls_frame.
  destruct (scanDecls W typeName (ast.Decls f) values) as [v|];
    [apply IH | reflexivity].
Qed.

(** X6.  The files of a package are scanned one after the other and each
    on its own: the result for the files [fs1 ++ fs2] is the result for
    [fs1] followed by the result for [fs2], and a panic in either is a panic
    of the whole. *)
Theorem X6_files_scanned_independently (W : World) (typeName : string)
  (fs1 fs2 : list (string * ast.File)) :
  parsePackage W typeName (ast.mkPackage (fs1 ++ fs2))
  = match parsePackage W typeName (ast.mkPackage fs1),
          parsePackage W typeName (ast.mkPackage fs2) with
    | Some v1, Some v2 => Some (v1 ++ v2)%list
    | _, _ => None
    end.
Proof.
  unfold parsePackage. simpl.
  assert (H : forall fs values,
             scanFiles W typeName (fs ++ fs2) values
             = match scanFiles W typeName fs values with
               | Some v => scanFiles W typeName fs2 v
               | None => None
               end).
  { induction fs as [|[name f] fs IH]; intro values; [reflexivity|].
    simpl. destruct (scanDecls W typeName (ast.Decls f) values);
      [apply IH | reflexivity]. }
  rewrite H. destruct (scanFiles W typeName fs1 []) as [v1|]; [|reflexivity].
  rewrite <- (app_nil_r v1) at 1. rewrite scanFiles_frame.
  now destruct (scanFiles W typeName fs2 []).
Qed.

(** ** The label *)

Lemma noBreak_append (a b : string) :
  noBreak (a ++ b) = noBreak a && noBreak b.
Proof.
  induction a as [|c a IH]; simpl; [reflexivity|].
  now rewrite IH, andb_assoc.
Qed.

Lemma noBreak_drop (n : nat) (s : string) :
  noBreak s = true -> noBreak (drop n s) = true.
Proof.
  revert s. induction n as [|n IH]; intros [|c s] H; simpl in *; auto.
  apply andb_prop in H as [_ H]. now apply IH.
Qed.

Lemma noBreak_TrimSpace (s : string) :
  noBreak s = true -> noBreak (strings.TrimSpace s) = true.
Proof.
  intro H.
  destruct (Trimmed_between _ _ (TrimSpace_Trimmed s)) as [l [r Hs]].
  rewrite Hs, !noBreak_append in H.
  apply andb_prop in H as [_ H]. now apply andb_prop in H as [H _].
Qed.

(** X7.  The message of a constant is a single line: whatever the name
    and the doc comment, it holds no carriage return and no line feed. *)
Theorem X7_message_single_line (constName : string)
  (Doc : option ast.CommentGroup) :
  noBreak (message constName Doc) = true.
Proof.
  unfold message. destruct Doc as [doc|]; [|reflexivity].
  destruct (strings.HasPrefix (ast.Text doc) constName); [|reflexivity].
  apply noBreak_TrimSpace. rewrite nlReplace_flatten.
  unfold strings.TrimPrefix.
  destruct (strings.HasPrefix (flattenLines (ast.Text doc)) constName).
  - apply noBreak_drop, flatten_noBreak.
  - apply flatten_noBreak.
Qed.

Lemma TrimSpace_fixed (t : string) :
  t = ""
  \/ (unicode.IsSpace (fst (utf8.DecodeRuneInString t)) = false
      /\ unicode.IsSpace (fst (utf8.DecodeLastRuneInString t)) = false) ->
  strings.TrimSpace t = t.
Proof.
  intros [->|[H1 H2]]; [reflexivity|].
  destruct t as [|c t]; [reflexivity|].
  rewrite TrimSpace_TrimFunc. unfold strings.TrimFunc.
  rewrite (TrimLeftFunc_unfold unicode.IsSpace (String c t)) by discriminate.
  rewrite H1.
  rewrite (TrimRightFunc_unfold unicode.IsSpace (String c t)) by discriminate.
  now rewrite H2.
Qed.

(** X8.  The message of a constant has no white space at its ends: it is
    empty, or its first and its last rune are no space; trimming it again
    changes nothing. *)
Theorem X8_message_trimmed (constName : string)
  (Doc : option ast.CommentGroup) :
  (message constName Doc = ""
   \/ (unicode.IsSpace
         (fst (utf8.DecodeRuneInString (message constName Doc))) = false
       /\ unicode.IsSpace
            (fst (utf8.DecodeLastRuneInString (message constName Doc))) = false))
  /\ strings.TrimSpace (message constName Doc) = message constName Doc.
Proof.
  assert (H : message constName Doc = ""
              \/ (unicode.IsSpace
                    (fst (utf8.DecodeRuneInString (message constName Doc)))
                  = false
                  /\ unicode.IsSpace
                       (fst (utf8.DecodeLastRuneInString
                               (message constName Doc))) = false)).
  { unfold message. destruct Doc as [doc|]; [|now left].
    destruct (strings.HasPrefix (ast.Text doc) constName); [|now left].
    destruct (TrimSpace_Trimmed
                (strings.TrimPrefix
                   (strings.Replace nlReplacer (ast.Text doc)) constName))
      as [m [_ [_ Hends]]].
    exact Hends. }
  split; [exact H | now apply TrimSpace_fixed].
Qed.

Lemma HasPrefix_append (p s : string) : strings.HasPrefix (p ++ s) p = true.
Proof.
  induction p as [|c p IH]; simpl; [reflexivity|].
  now rewrite Ascii.eqb_refl, IH.
Qed.

Lemma drop_length_append (p s : string) : drop (String.length p) (p ++ s) = s.
Proof. induction p as [|c p IH]; simpl; [reflexivity | exact IH]. Qed.

Lemma flatten_ident_append (p s : string) :
  identBytes p = true -> flattenLines (p ++ s) = p ++ flattenLines s.
Proof.
  induction p as [|c p IH]; intro H; [reflexivity|].
  simpl in H. apply andb_prop in H as [Hc Hp].
  destruct (identByte_plain c Hc) as [Hcr [Hlf _]].
  cbn [String.append flattenLines]. now rewrite Hcr, Hlf, (IH Hp).
Qed.

Lemma asciiSpace_ascii (c : ascii) :
  strings.asciiSpace (byte c) = true ->
  (utf8.RuneSelf <=? byte c)%Z = false.
Proof.
  unfold strings.asciiSpace, utf8.RuneSelf. intro H. apply Z.leb_gt.
  repeat (apply orb_prop in H as [H|H]); apply Z.eqb_eq in H; lia.
Qed.

Lemma flatten_asciiSpaces (s : string) :
  asciiSpaces s = true -> asciiSpaces (flattenLines s) = true.
Proof.
  assert (H : forall n s, String.length s <= n -> asciiSpaces s = true ->
                          asciiSpaces (flattenLines s) = true).
  { induction n as [|n IH]; intros [|c t] Hn Hs; simpl in Hn;
      try reflexivity; try lia.
    simpl in Hs. apply andb_prop in Hs as [Hc Ht].
    cbn [flattenLines].
    destruct (Ascii.eqb c CR).
    - destruct t as [|c' t']; [reflexivity|].
      simpl in Ht. apply andb_prop in Ht as [Hc' Ht'].
      destruct (Ascii.eqb c' LF); cbn [asciiSpaces].
      + rewrite IH; [reflexivity | simpl in Hn; lia | exact Ht'].
      + rewrite IH; [reflexivity | simpl in Hn; simpl; lia |].
        simpl. now rewrite Hc', Ht'.
    - destruct (Ascii.eqb c LF); cbn [asciiSpaces].
      + rewrite IH; [reflexivity | lia | exact Ht].
      + rewrite Hc, IH; [reflexivity | lia | exact Ht]. }
  intro Hs. apply (H (String.length s)); [lia | exact Hs].
Qed.

Lemma TrimSpace_asciiSpaces (s : string) :
  asciiSpaces s = true -> strings.TrimSpace s = "".
Proof.
  intro H. unfold strings.TrimSpace.
  assert (Hscan : strings.scanSpace s = strings.Fast "").
  { induction s as [|c t IH]; [reflexivity|].
    simpl in H. apply andb_prop in H as [Hc Ht].
    cbn [strings.scanSpace]. now rewrite (asciiSpace_ascii _ Hc), Hc, (IH Ht). }
  now rewrite Hscan.
Qed.

(** X9.  A doc comment that holds the name of the constant and nothing
    after it but ASCII white space (as for the comment [// Name]) gives the
    empty message. *)
Theorem X9_name_only_doc (constName ws : string) :
  identBytes constName = true ->
  asciiSpaces ws = true ->
  message constName (Some (ast.mkComment (constName ++ ws))) = "".
Proof.
  intros Hid Hws. unfold message. cbn [ast.Text].
  rewrite HasPrefix_append, nlReplace_flatten.
  rewrite (flatten_ident_append _ _ Hid).
  unfold strings.TrimPrefix. rewrite HasPrefix_append, drop_length_append.
  apply TrimSpace_asciiSpaces, flatten_asciiSpaces, Hws.
Qed.

(** ** The run *)

Lemma forEach_cons {A : Type} (body : A -> M unit) (a : A) (l : list A)
  (fs : Written) :
  forEach body (a :: l) fs
  = match body a fs with
    | (fs', Ret _) => forEach body l fs'
    | (fs', Exit code) => (fs', Exit code)
    | (fs', Panic) => (fs', Panic)
    end.
Proof. reflexivity. Qed.

(** What one turn of the loop over the packages can do. *)
Lemma parseDirBody_cases (W : World) (typeName output dir : string)
  (numPkgs : nat) (pkgName : string) (pkg : ast.Package) (fs : Written) :
  parseDirBody W typeName output dir numPkgs (pkgName, pkg) fs = (fs, Exit 1)
  \/ (parseDirBody W typeName output dir numPkgs (pkgName, pkg) fs = (fs, Panic)
      /\ (parsePackage W typeName pkg = None \/ typeName = ""))
  \/ (parseDirBody W typeName output dir numPkgs (pkgName, pkg) fs = (fs, Ret tt)
      /\ types_Check W dir pkg = true
      /\ parsePackage W typeName pkg = Some [])
  \/ (exists values r content,
         types_Check W dir pkg = true
         /\ parsePackage W typeName pkg = Some values
         /\ values <> []
         /\ reciever W typeName = Some r
         /\ format_Source W (fileTemplate W {| PackageName := pkgName;
                                               TypeName := typeName;
                                               Reciever := r;
                                               Consts := values |})
            = Some content
         /\ parseDirBody W typeName output dir numPkgs (pkgName, pkg) fs
            = ((fs ++ [(outputNameOf W typeName output dir numPkgs pkgName,
                        content)])%list, Ret tt)).
Proof.
  unfold parseDirBody, checkPackages, bind, genfile.
  destruct (types_Check W dir pkg); [|now left].
  cbn [ret].
  destruct (parsePackage W typeName pkg) as [values|] eqn:Hp;
    [|right; left; split; [reflexivity | now left]].
  cbn [ret]. destruct values as [|v values].
  - right. right. left. now repeat split.
  - cbn [List.length Nat.eqb].
    destruct (reciever W typeName) as [r|] eqn:Hr.
    + cbn [ret].
      destruct (format_Source W _) as [content|] eqn:Hf; [|now left].
      destruct (ioutil_WriteFile W _); [|now left].
      right. right. right. exists (v :: values), r, content.
      repeat split; try assumption; try reflexivity. discriminate.
    + right. left. split; [reflexivity|]. right.
      unfold reciever in Hr. now destruct typeName.
Qed.

(** The loop over the packages only adds files, at most one for each
    package, each written for a package of the list; it ends by returning,
    by [log.Fatal] or by a panic. *)
Lemma forEach_written (W : World) (typeName output dir : string)
  (pkgs l : list (string * ast.Package)) (fs fs' : Written)
  (out : Outcome unit) :
  (forall p, In p l -> In p pkgs) ->
  forEach (parseDirBody W typeName output dir (List.length pkgs)) l fs
  = (fs', out) ->
  exists added,
    fs' = (fs ++ added)%list
    /\ List.length added <= List.length l
    /\ Forall (writtenFor W typeName output dir pkgs) added
    /\ (forall code, out = Exit code -> code = 1%Z).
Proof.
  revert fs. induction l as [|[pkgName pkg] l IH]; intros fs Hsub Hrun.
  - inversion Hrun; subst. exists []. rewrite app_nil_r.
    repeat split; auto. discriminate.
  - rewrite forEach_cons in Hrun.
    assert (Hsub' : forall p, In p l -> In p pkgs)
      by (intros p Hp; apply Hsub; now right).
    destruct (parseDirBody_cases W typeName output dir (List.length pkgs)
                                 pkgName pkg fs)
      as [Hb|[[Hb _]|[[Hb _]|(values & r & content & Hc & Hp & Hv & Hr & Hf & Hb)]]];
      rewrite Hb in Hrun.
    + inversion Hrun; subst. exists []. rewrite app_nil_r.
      repeat split; simpl; auto with arith. intros code Hc. now inversion Hc.
    + inversion Hrun; subst. exists []. rewrite app_nil_r.
      repeat split; simpl; auto with arith. discriminate.
    + destruct (IH _ Hsub' Hrun) as (added & Hfs & Hlen & Hall & Hout).
      exists added. repeat split; auto. simpl. lia.
    + destruct (IH _ Hsub' Hrun) as (added & Hfs & Hlen & Hall & Hout).
      exists ((outputNameOf W typeName output dir (List.length pkgs) pkgName,
               content) :: added).
      repeat split.
      * rewrite Hfs, <- app_assoc. reflexivity.
      * simpl. lia.
      * constructor; [|exact Hall].
        exists pkgName, pkg, values, r. repeat split; auto.
        apply Hsub. now left.
      * exact Hout.
Qed.

(** X10.  A run over a directory only adds files to those that exist, at
    most one for each package; every file added is the formatter's output
    for the template filled with the entries of a package of the directory
    that passed the check and has at least one entry, under the name
    computed for that package. *)
Theorem X10_files_written_by_parseDir (W : World)
  (typeName output dir : string) (pkgs : list (string * ast.Package))
  (fs fs' : Written) (out : Outcome unit) :
  parser_ParseDir W dir = Some pkgs ->
  parseDir W typeName output dir fs = (fs', out) ->
  exists added,
    fs' = (fs ++ added)%list
    /\ List.length added <= List.length pkgs
    /\ Forall (writtenFor W typeName output dir pkgs) added.
Proof.
  intros Hdir Hrun. unfold parseDir in Hrun. rewrite Hdir in Hrun.
  destruct (forEach_written W typeName output dir pkgs pkgs fs fs' out
                            (fun p H => H) Hrun)
    as (added & H1 & H2 & H3 & _).
  now exists added.
Qed.

(** The log of a run of the command extends the log it starts from; an
    exit has the status 1 or 2, and with the status 2 nothing is added. *)
Lemma main_log_extends (W : World) (typeName output : string)
  (args : list string) (fs fs' : Written) (out : Outcome unit) :
  main W typeName output args fs = (fs', out) ->
  exists added,
    fs' = (fs ++ added)%list
    /\ (forall code, out = Exit code -> code = 1%Z \/ code = 2%Z)
    /\ (out = Exit 2 -> added = []).
Proof.
  unfold main, isDirectory, os_Exit, bind. intro Hrun.
  assert (Hnil : forall o, (fs', out) = (fs, o) ->
                           fs' = (fs ++ [])%list /\ out = o).
  { intros o H. inversion H. now rewrite app_nil_r. }
  destruct (String.eqb typeName "").
  { symmetry in Hrun. destruct (Hnil _ Hrun) as [H1 H2]. exists [].
    repeat split; auto. intros code Hc. rewrite H2 in Hc. inversion Hc. auto. }
  destruct (os_Stat W _) as [isDir|].
  - cbn [ret] in Hrun. destruct isDir; cbn [negb] in Hrun.
    + unfold parseDir in Hrun.
      destruct (parser_ParseDir W _) as [pkgs|] eqn:Hdir.
      * destruct (forEach_written W typeName output _ pkgs pkgs fs fs' out
                                  (fun p H => H) Hrun)
          as (added & H1 & _ & _ & H4).
        exists added. split; [exact H1|]. split.
        -- intros code Hc. left. exact (H4 _ Hc).
        -- intro Hc. specialize (H4 _ Hc). discriminate H4.
      * unfold log_Fatal in Hrun. symmetry in Hrun.
        destruct (Hnil _ Hrun) as [H1 H2]. exists [].
        repeat split; auto.
        -- intros code Hc. rewrite H2 in Hc. inversion Hc. auto.
    + symmetry in Hrun. destruct (Hnil _ Hrun) as [H1 H2]. exists [].
      repeat split; auto. intros code Hc. rewrite H2 in Hc. inversion Hc. auto.
  - unfold log_Fatal in Hrun. symmetry in Hrun.
    destruct (Hnil _ Hrun) as [H1 H2]. exists [].
    repeat split; auto. intros code Hc. rewrite H2 in Hc. inversion Hc. auto.
Qed.

(** X11.  When a run of the command exits, the status is 1 or 2; with the
    status 2 (the usage message, for a missing type name or an argument
    that is not a directory) the run has made no successful call of
    [ioutil.WriteFile]. *)
Theorem X11_usage_exit_writes_nothing (W : World) (typeName output : string)
  (args : list string) (written : Written) (out : Outcome unit) :
  main W typeName output args [] = (written, out) ->
  (forall code, out = Exit code -> code = 1%Z \/ code = 2%Z)
  /\ (out = Exit 2 -> written = []).
Proof.
  intro Hrun.
  destruct (main_log_extends W typeName output args [] written out Hrun)
    as (added & Hlog & Hcode & Husage).
  split; [exact Hcode|].
  intro Hout. rewrite Hlog, (Husage Hout). reflexivity.
Qed.

Lemma forEach_no_panic (W : World) (typeName output dir : string)
  (numPkgs : nat) (l : list (string * ast.Package)) (fs : Written) :
  typeName <> "" ->
  (forall p, In p l -> wellFormed (snd p) = true) ->
  snd (forEach (parseDirBody W typeName output dir numPkgs) l fs) <> Panic.
Proof.
  intros Hne. revert fs.
  induction l as [|[pkgName pkg] l IH]; intros fs Hwf.
  - discriminate.
  - rewrite forEach_cons.
    assert (Hwf' : forall p, In p l -> wellFormed (snd p) = true)
      by (intros p Hp; apply Hwf; now right).
    destruct (parseDirBody_cases W typeName output dir numPkgs pkgName pkg fs)
      as [Hb|[[Hb Hwhy]|[[Hb _]|(v & r & c & _ & _ & _ & _ & _ & Hb)]]];
      rewrite Hb.
    + discriminate.
    + destruct Hwhy as [Hnone|Hempty]; [|now elim Hne].
      rewrite (parsePackage_groups W typeName pkg) in Hnone; [discriminate|].
      apply (Hwf (pkgName, pkg)). now left.
    + now apply IH.
    + now apply IH.
Qed.

(** X12.  On packages as the parser builds them (every spec of a constant
    declaration a value spec) a run of the command never panics, whatever
    the flags and the arguments: the empty type name is refused before its
    first byte is read, and the type assertion on the specs cannot fail. *)
Theorem X12_main_never_panics (W : World) (typeName output : string)
  (args : list string) (fs : Written) :
  (forall dir pkgs p,
      parser_ParseDir W dir = Some pkgs -> In p pkgs ->
      wellFormed (snd p) = true) ->
  snd (main W typeName output args fs) <> Panic.
Proof.
  intro Hwf. unfold main, isDirectory, os_Exit, log_Fatal, bind.
  destruct (String.eqb typeName "") eqn:Hne; [discriminate|].
  apply String.eqb_neq in Hne.
  destruct (os_Stat W _) as [isDir|]; [|discriminate].
  cbn [ret]. destruct isDir; cbn [negb]; [|discriminate].
  unfold parseDir, log_Fatal.
  destruct (parser_ParseDir W _) as [pkgs|] eqn:Hdir; [|discriminate].
  apply forEach_no_panic; [exact Hne|].
  intros p Hp. exact (Hwf _ _ _ Hdir Hp).
Qed.

(** X13.  A package that fails the check ends the run with the status 1:
    the files written for the packages before it stay, and no package after
    it is looked at. *)
Theorem X13_failed_check_stops_run (W : World) (typeName output dir : string)
  (numPkgs : nat) (pre post : list (string * ast.Package))
  (pkgName : string) (pkg : ast.Package) (fs : Written) :
  types_Check W dir pkg = false ->
  forEach (parseDirBody W typeName output dir numPkgs)
          (pre ++ (pkgName, pkg) :: post) fs
  = match forEach (parseDirBody W typeName output dir numPkgs) pre fs with
    | (fs1, Ret _) => (fs1, Exit 1)
    | other => other
    end.
Proof.
  intro Hcheck. revert fs.
  induction pre as [|p pre IH]; intro fs.
  - cbn [app]. rewrite forEach_cons.
    unfold parseDirBody, checkPackages, bind, log_Fatal at 1.
    now rewrite Hcheck.
  - cbn [app]. rewrite !forEach_cons.
    destruct (parseDirBody W typeName output dir numPkgs p fs) as [fs1 [u|c|]];
      [apply IH | reflexivity | reflexivity].
Qed.

Lemma append_cancel_l (s a b : string) : s ++ a = s ++ b -> a = b.
Proof.
  induction s as [|c s IH]; simpl; intro H; [exact H|].
  inversion H. now apply IH.
Qed.

Lemma append_cancel_r (a b s : string) : a ++ s = b ++ s -> a = b.
Proof.
  intro H. apply (f_equal rev) in H. rewrite !rev_append in H.
  apply append_cancel_l in H. apply (f_equal rev) in H.
  now rewrite !rev_involutive in H.
Qed.

(** X14.  When a directory holds more than one package, two packages get
    the same output file name only if they have the same name: the prefix
    keeps the files of the packages of one run apart, with or without an
    output name given. *)
Theorem X14_package_prefix_distinguishes (W : World)
  (typeName output dir : string) (numPkgs : nat) (p1 p2 : string) :
  (1 < numPkgs)%nat ->
  outputNameOf W typeName output dir numPkgs p1
  = outputNameOf W typeName output dir numPkgs p2 ->
  p1 = p2.
Proof.
  intros Hn. unfold outputNameOf.
  apply Nat.ltb_lt in Hn. rewrite Hn.
  intro H. rewrite <- !append_assoc in H. apply append_cancel_r in H.
  now apply append_cancel_r in H.
Qed.

(** ** The rendered text, line by line *)




Lemma lines_not_nil (s : string) : gosrc.lines s <> [].
Proof.
  induction s as [|c t IH]; cbn [gosrc.lines]; [discriminate|].
  destruct (Ascii.eqb c LF); [discriminate|].
  destruct (gosrc.lines t); discriminate.
Qed.







(** ** The statements of the rendered lines *)













(** ** The clause that the switch selects *)






(** X16.  For a type name that starts with an ASCII byte the receiver is
    that one byte, lower-cased: it is no capital letter, lower-casing it
    again changes nothing, and it is an identifier byte when the first byte
    of the type name is one. *)
Theorem X16_receiver_of_ascii_name (W : World) (c : ascii) (t : string) :
  (byte c < 0x80)%Z ->
  exists l,
    reciever W (String c t) = Some (String l "")
    /\ String l "" = strings.lowerBytes (String c "")
    /\ strings.isUpperByte (byte l) = false
    /\ strings.ToLower (unicode_lowerCase W) (String l "") = String l ""
    /\ (identByte c = true -> identByte l = true).
Proof.
  intro H. unfold reciever.
  destruct c as [b0 b1 b2 b3 b4 b5 b6 b7].
  destruct b0, b1, b2, b3, b4, b5, b6, b7;
    try (vm_compute in H; discriminate H);
    eexists; (split; [vm_compute; reflexivity|]);
    repeat split; try (vm_compute; reflexivity); vm_compute; congruence.
Qed.

Lemma split_noSeparator (s : string) :
  noSeparator s = true -> filepath.split s = [s].
Proof.
  induction s as [|c t IH]; intro H; [reflexivity|].
  simpl in H. apply andb_prop in H as [Hc Ht]. apply negb_true_iff in Hc.
  cbn [filepath.split]. now rewrite Hc, (IH Ht).
Qed.

Lemma noSeparator_append (a b : string) :
  noSeparator (a ++ b) = noSeparator a && noSeparator b.
Proof.
  induction a as [|c a IH]; simpl; [reflexivity|].
  now rewrite IH, andb_assoc.
Qed.

Lemma eqb_length (a b : string) :
  String.length a <> String.length b -> String.eqb a b = false.
Proof.
  intro H. apply String.eqb_neq. intro E. now subst.
Qed.

(** X17.  The documented use, from the package directory: with the
    directory [.] and no output name, the file is written to the current
    directory under the name [<lower-cased type name>_string_gen.go], with
    the package name and an underscore before it when the directory holds
    more than one package. *)
Theorem X17_default_name_in_current_directory (W : World)
  (typeName pkgName : string) (numPkgs : nat) :
  noSeparator (strings.ToLower (unicode_lowerCase W) typeName) = true ->
  outputNameOf W typeName "" "." numPkgs pkgName
  = (if (1 <? numPkgs)%nat then pkgName ++ "_" else "")
    ++ strings.ToLower (unicode_lowerCase W) typeName ++ "_string_gen.go".
Proof.
  intro Hsep. rewrite outputNameOf_default. cbv zeta.
  set (name := strings.ToLower (unicode_lowerCase W) typeName ++ "_string_gen.go").
  assert (Hname : noSeparator name = true).
  { unfold name. now rewrite noSeparator_append, Hsep. }
  assert (Hlen : 14 <= String.length name).
  { unfold name. rewrite length_append. simpl. lia. }
  assert (Hjoin : filepath.Join "." name = name).
  { unfold filepath.Join, filepath.Clean. cbn [String.append].
    cbn [filepath.split Ascii.eqb Bool.eqb filepath.Separator].
    change (filepath.split ("" ++ "/" ++ name)) with ("" :: filepath.split name).
    rewrite (split_noSeparator _ Hname).
    cbn [fold_left]. unfold filepath.cleanStep at 2 3.
    cbn [String.eqb Ascii.eqb Bool.eqb andb].
    unfold filepath.cleanStep.
    rewrite !eqb_length by (simpl; lia).
    cbn [List.rev app String.concat]. reflexivity. }
  rewrite Hjoin. destruct (1 <? numPkgs)%nat; [|reflexivity].
  now rewrite append_assoc.
Qed.

(** X18.  The receiver of every type name: the empty type name has none
    (reading its first byte panics); otherwise the receiver is the UTF-8
    encoding of one code point, the lower case of the code point whose
    number is the first byte of the type name, whatever follows that byte
    and whatever the Unicode tables above Latin-1. *)
Theorem X18_receiver_is_lowered_first_byte (W : World) :
  reciever W "" = None
  /\ forall (c : ascii) (t : string),
      reciever W (String c t)
      = Some (utf8.EncodeRune (unicode.ToLower (unicode_lowerCase W) (byte c)))
      /\ utf8.DecodeRuneInString
           (utf8.EncodeRune (unicode.ToLower (unicode_lowerCase W) (byte c)))
         = (unicode.ToLower (unicode_lowerCase W) (byte c),
            String.length
              (utf8.EncodeRune (unicode.ToLower (unicode_lowerCase W) (byte c)))).
Proof.
  split; [reflexivity|]. intros c t. unfold reciever.
  destruct c as [b0 b1 b2 b3 b4 b5 b6 b7].
  destruct b0, b1, b2, b3, b4, b5, b6, b7; split; vm_compute; reflexivity.
Qed.

(** X19.  The loop over the names of a spec adds a name that starts with
    an ASCII byte exactly when that byte is a capital letter: the discard
    identifier and the names that start with an underscore, a digit or a
    small letter are left out whatever the Unicode tables are, and the test
    on the discard identifier never decides. *)
Theorem X19_ascii_names_exported_by_capital (W : World) (vs : ast.ValueSpec)
  (values : list constValue) (c : ascii) (t : string) :
  (byte c < 0x80)%Z ->
  scanName W vs values (Some (ast.mkIdent (String c t)))
  = if strings.isUpperByte (byte c)
    then (values
          ++ [ {| Name := String c t;
                  Msg := message (String c t) (ast.Doc vs) |} ])%list
    else values.
Proof.
  intro H. unfold scanName. cbn [ast.Name].
  assert (Hx : IsExported W (String c t) = strings.isUpperByte (byte c)).
  { unfold IsExported. rewrite Decode_ascii by (apply Z.leb_gt; exact H).
    cbn [fst]. clear t vs values.
    destruct c as [b0 b1 b2 b3 b4 b5 b6 b7].
    destruct b0, b1, b2, b3, b4, b5, b6, b7;
      try (vm_compute in H; discriminate H); vm_compute; reflexivity. }
  rewrite Hx.
  destruct (String.eqb (String c t) "_") eqn:E.
  - apply String.eqb_eq in E. inversion E; subst. reflexivity.
  - cbn [orb]. now destruct (strings.isUpperByte (byte c)).
Qed.

(** ** The further properties at concrete inputs *)

Lemma X2_witness :
  exists specs vs id,
    In specs (constGroups colorPackage)
    /\ In (ast.ValueSpecOf vs) specs
    /\ In (Some id) (ast.Names vs)
    /\ {| Name := "Green"; Msg := "is a colour" |}
       = {| Name := ast.Name id; Msg := message (ast.Name id) (ast.Doc vs) |}.
Proof.
  apply (X2_entries_come_from_specs plainWorld "Color" colorPackage
           [ {| Name := "Red"; Msg := "is a colour" |};
             {| Name := "Green"; Msg := "is a colour" |};
             {| Name := "Blue"; Msg := "is a colour" |} ]).
  - vm_compute. reflexivity.
  - right. left. reflexivity.
Defined.

Lemma X3_witness :
  scanSpecs plainWorld "Color"
            (map ast.ValueSpecOf
                 [colorSpec "Red" true; colorSpec "Green" false;
                  colorSpec "Blue" false]) ("", [])
  = Some ("Color",
          ([] ++ flat_map (candidates plainWorld)
                          [colorSpec "Red" true; colorSpec "Green" false;
                           colorSpec "Blue" false])%list).
Proof.
  apply (X3_typed_then_bare plainWorld "Color" ""
           (colorSpec "Red" true)
           [colorSpec "Green" false; colorSpec "Blue" false] []);
    reflexivity.
Defined.

Lemma X4_witness :
  scanSpecs plainWorld "Color"
            (map ast.ValueSpecOf [limitSpec; colorSpec "Hidden" false])
            ("Color", [])
  = Some ("", []).
Proof.
  apply (X4_untyped_value_resets plainWorld "Color" "Color" limitSpec
           [colorSpec "Hidden" false] []).
  - discriminate.
  - reflexivity.
  - reflexivity.
Defined.

Lemma X9_witness :
  message "StatusOK" (Some (ast.mkComment ("StatusOK" ++ nl))) = "".
Proof. apply (X9_name_only_doc "StatusOK" nl); reflexivity. Defined.

Lemma X10_witness :
  exists added,
    [("http/statuscode_string_gen.go", httpGenerated)] = ([] ++ added)%list
    /\ List.length added <= 1
    /\ Forall (writtenFor plainWorld "StatusCode" "" "http"
                          [("http", httpPackage)]) added.
Proof.
  apply (X10_files_written_by_parseDir plainWorld "StatusCode" "" "http"
           [("http", httpPackage)] []
           [("http/statuscode_string_gen.go", httpGenerated)] (Ret tt)).
  - reflexivity.
  - vm_compute. reflexivity.
Defined.

Lemma X11_witness :
  (forall code, @Exit unit 2 = Exit code -> code = 1%Z \/ code = 2%Z)
  /\ (@Exit unit 2 = Exit 2 -> @nil (string * string) = []).
Proof.
  apply (X11_usage_exit_writes_nothing plainWorld "" "" ["http"] [] (Exit 2)).
  reflexivity.
Defined.

Lemma X12_witness :
  snd (main plainWorld "StatusCode" "" ["http"] []) <> Panic.
Proof.
  apply (X12_main_never_panics plainWorld "StatusCode" "" ["http"] []).
  intros dir pkgs p Hdir Hin. cbn in Hdir.
  destruct (String.eqb dir "http"); [|discriminate Hdir].
  inversion Hdir; subst pkgs. destruct Hin as [<-|[]]. reflexivity.
Defined.

Lemma X13_witness :
  forEach (parseDirBody rejectingWorld "StatusCode" "" "http" 2)
          ([] ++ [("http", httpPackage); ("main", mainPackage)]) []
  = ([], Exit 1).
Proof.
  apply (X13_failed_check_stops_run rejectingWorld "StatusCode" "" "http" 2
           [] [("main", mainPackage)] "http" httpPackage []).
  reflexivity.
Defined.

Lemma X14_witness :
  "http" = "http".
Proof.
  apply (X14_package_prefix_distinguishes plainWorld "StatusCode" "" "pkg" 2
           "http" "http").
  - apply Nat.lt_succ_diag_r.
  - reflexivity.
Defined.


Lemma X16_witness :
  exists l,
    reciever plainWorld "StatusCode" = Some (String l "")
    /\ String l "" = strings.lowerBytes "S"
    /\ strings.isUpperByte (byte l) = false
    /\ strings.ToLower (unicode_lowerCase plainWorld) (String l "") = String l ""
    /\ (identByte "S" = true -> identByte l = true).
Proof.
  apply (X16_receiver_of_ascii_name plainWorld "S"%char "tatusCode").
  reflexivity.
Defined.

Lemma X17_witness :
  outputNameOf plainWorld "StatusCode" "" "." 2 "http"
  = "http_" ++ "statuscode" ++ "_string_gen.go".
Proof.
  apply (X17_default_name_in_current_directory plainWorld "StatusCode" "http" 2).
  reflexivity.
Defined.

Lemma X19_witness :
  scanName plainWorld typedSpec [] (Some (ast.mkIdent "_secret")) = []
  /\ scanName plainWorld typedSpec [] (Some (ast.mkIdent "Secret"))
     = [ {| Name := "Secret"; Msg := "" |} ].
Proof.
  split.
  - apply (X19_ascii_names_exported_by_capital plainWorld typedSpec []
             "_"%char "secret"). reflexivity.
  - apply (X19_ascii_names_exported_by_capital plainWorld typedSpec []
             "S"%char "ecret"). reflexivity.
Defined.
